(** * ppc-simd.h: PowerPC vector support functions

    A shallow embedding of the Crypto++ header [ppc-simd.h] and the
    properties of its vector primitives.

    Conventions of the model.

    - A 128-bit vector value is the list of its 16 bytes in _element
      order_: position [i] is element [i] of the value seen as a
      [uint8x16_p], which is also the byte stored at address [p + i] by a
      native 16-byte store to [p].  The initialiser [{15,14,...,0}] of the
      source is therefore the list [15; 14; ...; 0].  The typedefs
      [uint8x16_p], [uint16x8_p], [uint32x4_p] and [uint64x2_p] name the
      same 128 bits, and the C casts between them are the identity.
    - Memory is a total map from addresses to bytes; a store is a function
      from memory to memory.
    - Conditional compilation is a build configuration: the host byte
      order and the two compiler-version macros.  The capability tier
      selects between the modules [Power7] and [Altivec].
    - The AltiVec/VSX built-ins of [<altivec.h>] are not part of the
      header; they are given their documented meaning in section
      [Builtins]. *)

From Stdlib Require Import ZArith List Bool Lia.
From Stdlib.Strings Require Import Byte.
Import ListNotations.

Local Open Scope Z_scope.

(* ------------------------------------------------------------------ *)
(** ** Bytes and vectors *)

Definition byte_to_Z (b : byte) : Z := Z.of_N (Byte.to_N b).

Definition byte_of_Z (z : Z) : byte :=
  match Byte.of_N (Z.to_N (z mod 256)) with
  | Some b => b
  | None => x00
  end.

Definition byte_xor (a b : byte) : byte :=
  byte_of_Z (Z.lxor (byte_to_Z a) (byte_to_Z b)).

Definition byte_and (a b : byte) : byte :=
  byte_of_Z (Z.land (byte_to_Z a) (byte_to_Z b)).

(** The 128-bit vector types of the header (lines 53-57). *)
Definition uint8x16_p := list byte.
Definition uint16x8_p := list byte.
Definition uint32x4_p := list byte.
Definition uint64x2_p := list byte.

(** A well-formed vector value has exactly 16 bytes. *)
Definition is_vector (v : list byte) : Prop := length v = 16%nat.

(** The sixteen lane indices 0..15. *)
Definition lanes : list Z := map Z.of_nat (seq 0 16).

(** A vector literal [{b0, ..., b15}]. *)
Definition vec_lit (l : list Z) : uint8x16_p := map byte_of_Z l.

(* ------------------------------------------------------------------ *)
(** ** Build configuration *)

(** The host byte order.  The header reads it from the macros
    [CRYPTOPP_BIG_ENDIAN] and [CRYPTOPP_LITTLE_ENDIAN] of config.h, of
    which exactly one is defined, with value 1; so [#if CRYPTOPP_BIG_ENDIAN],
    [#if defined(CRYPTOPP_BIG_ENDIAN)] and
    [#if !defined(CRYPTOPP_LITTLE_ENDIAN)] are the same test. *)
Inductive endianness : Set := BigEndian | LittleEndian.

(** [xlc] stands for [defined(CRYPTOPP_XLC_VERSION)] and [gcc] for
    [defined(CRYPTOPP_GCC_VERSION)]. *)
Record config : Set := mkConfig {
  host : endianness;
  xlc : bool;
  gcc : bool
}.

(** What a call of a C++ function body produces: a returned value, a
    fired assertion, or control flowing off the end of a value-returning
    function without a [return] statement. *)
Inductive outcome (A : Type) : Type :=
| Returned (a : A)
| AssertionFailed
| NoReturn.
Arguments Returned {A} a.
Arguments AssertionFailed {A}.
Arguments NoReturn {A}.

Definition bind {A B : Type} (o : outcome A) (k : A -> outcome B) : outcome B :=
  match o with
  | Returned a => k a
  | AssertionFailed => AssertionFailed
  | NoReturn => NoReturn
  end.

(** Whether a call ended in a fired assertion. *)
Definition assertion_fired {A : Type} (o : outcome A) : bool :=
  match o with
  | AssertionFailed => true
  | _ => false
  end.

Definition fmap {A B : Type} (f : A -> B) (o : outcome A) : outcome B :=
  bind o (fun a => Returned (f a)).

(* ------------------------------------------------------------------ *)
(** ** Memory *)

Definition addr := Z.
Definition mem := addr -> byte.

(** The 16 bytes at [a .. a+15]. *)
Definition load16 (m : mem) (a : addr) : uint8x16_p :=
  map (fun i => m (a + i)) lanes.

(** Overwrite the 16 bytes at [a .. a+15] with [v]. *)
Definition store16 (m : mem) (a : addr) (v : uint8x16_p) : mem :=
  fun x => if (a <=? x) && (x <? a + 16)
           then nth (Z.to_nat (x - a)) v x00 else m x.

(* ------------------------------------------------------------------ *)
(** ** The built-ins of <altivec.h> *)

Module Builtins.

(** [vec_perm(a, b, mask)]: element [i] of the result is the byte of the
    concatenation [a ++ b] selected by the low five bits of element [i] of
    [mask].  The compilers keep this element-order meaning on both byte
    orders. *)
Definition vec_perm (a b mask : uint8x16_p) : uint8x16_p :=
  map (fun k => nth (Z.to_nat (Z.land (byte_to_Z k) 31)) (a ++ b) x00) mask.

Definition vec_xor (a b : uint8x16_p) : uint8x16_p :=
  map (fun p => byte_xor (fst p) (snd p)) (combine a b).

Definition vec_and (a b : uint8x16_p) : uint8x16_p :=
  map (fun p => byte_and (fst p) (snd p)) (combine a b).

(** The big-endian view of a vector value, which is also its register
    image: byte [j], counted from the most significant end of the
    register, is element [j] on a big-endian host and element [15 - j] on
    a little-endian host.  The map is its own inverse. *)
Definition be_view (e : endianness) (v : uint8x16_p) : uint8x16_p :=
  match e with
  | BigEndian => v
  | LittleEndian => rev v
  end.

(** The [vsldoi] instruction on register images: the leftmost 16 bytes of
    the 32-byte concatenation shifted left by [sh] bytes. *)
Definition vsldoi (ra rb : uint8x16_p) (sh : Z) : uint8x16_p :=
  firstn 16 (skipn (Z.to_nat sh) (ra ++ rb)).

(** [vec_sld(a, b, sh)] is the bare [vsldoi] instruction on either byte
    order; the compiler does not adjust it for little-endian element
    numbering (the reason for the two branches of [VectorShiftLeft]). *)
Definition vec_sld (e : endianness) (a b : uint8x16_p) (sh : Z) : uint8x16_p :=
  be_view e (vsldoi (be_view e a) (be_view e b) sh).

(** [vec_ld(off, p)] / [vec_st(v, off, p)]: the aligned quadword access;
    the low four bits of the effective address are ignored. *)
Definition align_down (a s : Z) : Z := a - a mod s.

Definition vec_ld (m : mem) (off : Z) (p : addr) : uint8x16_p :=
  load16 m (align_down (p + off) 16).

Definition vec_st (v : uint8x16_p) (off : Z) (p : addr) (m : mem) : mem :=
  store16 m (align_down (p + off) 16) v.

(** [vec_vsx_ld] / [vec_vsx_st] (GCC) and [vec_xl] / [vec_xst] (XL C/C++):
    unaligned 16-byte access in native element order. *)
Definition vec_vsx_ld (m : mem) (off : Z) (p : addr) : uint8x16_p :=
  load16 m (p + off).

Definition vec_vsx_st (v : uint8x16_p) (off : Z) (p : addr) (m : mem) : mem :=
  store16 m (p + off) v.

Definition vec_xl (m : mem) (off : Z) (p : addr) : uint8x16_p :=
  load16 m (p + off).

Definition vec_xst (v : uint8x16_p) (off : Z) (p : addr) (m : mem) : mem :=
  store16 m (p + off) v.

(** [vec_xl_be] / [vec_xst_be]: unaligned 16-byte access with big-endian
    element order.  For byte elements the first byte in memory is element
    0 on a big-endian host and element 15 on a little-endian host. *)
Definition vec_xl_be (e : endianness) (m : mem) (off : Z) (p : addr) : uint8x16_p :=
  be_view e (load16 m (p + off)).

Definition vec_xst_be (e : endianness) (v : uint8x16_p) (off : Z) (p : addr)
  (m : mem) : mem :=
  store16 m (p + off) (be_view e v).

(** [vec_lvsl(off, p)] and [vec_lvsr(off, p)]: the alignment permute
    vectors.  With [sh] the low four bits of the address, [vec_lvsl] is
    [{sh, sh+1, ..., sh+15}] and [vec_lvsr] is [{16-sh, ..., 31-sh}]. *)
Definition vec_lvsl (off : Z) (p : addr) : uint8x16_p :=
  map (fun i => byte_of_Z ((p + off) mod 16 + i)) lanes.

Definition vec_lvsr (off : Z) (p : addr) : uint8x16_p :=
  map (fun i => byte_of_Z (16 - (p + off) mod 16 + i)) lanes.

(** [vec_ste(v, off, p)] on elements of [s] bytes ([s] = 1, 2, 4 for the
    [uint8x16_p], [uint16x8_p], [uint32x4_p] forms): the effective address
    is [p + off] rounded down to a multiple of [s]; the one element of [v]
    that sits at that position within its quadword is written there, so
    the byte written to address [x] is byte [x mod 16] of [v]. *)
Definition vec_ste (s : Z) (v : uint8x16_p) (off : Z) (p : addr) (m : mem) : mem :=
  let ea := align_down (p + off) s in
  fun x => if (ea <=? x) && (x <? ea + s)
           then nth (Z.to_nat (x mod 16)) v x00 else m x.

(** The element type of a vector: sixteen 8-bit, eight 16-bit, four
    32-bit or two 64-bit lanes. *)
Inductive lane_type : Set := U8x16 | U16x8 | U32x4 | U64x2.

Definition lane_bytes (t : lane_type) : nat :=
  match t with
  | U8x16 => 1
  | U16x8 => 2
  | U32x4 => 4
  | U64x2 => 8
  end.

(** The unsigned value of a lane given by its bytes, most significant
    first, and the [w] bytes of a value, most significant first. *)
Definition lane_value (l : list byte) : Z :=
  fold_left (fun acc b => acc * 256 + byte_to_Z b) l 0.

Definition lane_of_value (w : nat) (z : Z) : list byte :=
  map (fun i => byte_of_Z (z / 256 ^ Z.of_nat (w - 1 - i))) (seq 0 w).

(** Lane [k] of a register image, for lanes of [w] bytes. *)
Definition lane (w : nat) (r : uint8x16_p) (k : nat) : list byte :=
  firstn w (skipn (k * w) r).

(** The modular add instructions ([vaddubm], [vadduhm], [vadduwm],
    [vaddudm]) on register images: each lane of the result is the sum of
    the two lanes modulo 2^(8w). *)
Definition vadd (w : nat) (ra rb : uint8x16_p) : uint8x16_p :=
  concat (map (fun k =>
                 lane_of_value w
                   ((lane_value (lane w ra k) + lane_value (lane w rb k))
                    mod 256 ^ Z.of_nat w))
              (seq 0 (16 / w))).

(** [vec_add(a, b)] for the unsigned integer vector types. *)
Definition vec_add (e : endianness) (t : lane_type) (a b : uint8x16_p)
  : uint8x16_p :=
  be_view e (vadd (lane_bytes t) (be_view e a) (be_view e b)).

End Builtins.
Import Builtins.

(* ------------------------------------------------------------------ *)
(** ** Feature macros (lines 22-62) *)

(** The macros the first lines of the header read: the [CRYPTOPP_*]
    feature macros as config.h left them, the architecture macros the
    compiler defines for the translation unit, and the documentation
    switch.  [true] stands for "defined". *)
Record macros : Set := mkMacros {
  CRYPTOPP_ALTIVEC_AVAILABLE : bool;
  CRYPTOPP_POWER7_AVAILABLE : bool;
  CRYPTOPP_POWER8_AVAILABLE : bool;
  CRYPTOPP_POWER8_AES_AVAILABLE : bool;
  CRYPTOPP_POWER8_VMULL_AVAILABLE : bool;
  CRYPTOPP_POWER8_SHA_AVAILABLE : bool;
  __ALTIVEC__ : bool;
  _ARCH_PWR7 : bool;
  _ARCH_PWR8 : bool;
  _ARCH_PWR9 : bool;
  __CRYPTO : bool;
  __CRYPTO__ : bool;
  CRYPTOPP_DOXYGEN_PROCESSING : bool
}.

(** Lines 27-29. *)
Definition undef_altivec (k : macros) : macros :=
  if negb (__ALTIVEC__ k) then
    mkMacros false (CRYPTOPP_POWER7_AVAILABLE k) (CRYPTOPP_POWER8_AVAILABLE k)
      (CRYPTOPP_POWER8_AES_AVAILABLE k) (CRYPTOPP_POWER8_VMULL_AVAILABLE k)
      (CRYPTOPP_POWER8_SHA_AVAILABLE k) (__ALTIVEC__ k) (_ARCH_PWR7 k)
      (_ARCH_PWR8 k) (_ARCH_PWR9 k) (__CRYPTO k) (__CRYPTO__ k)
      (CRYPTOPP_DOXYGEN_PROCESSING k)
  else k.

(** Lines 31-33. *)
Definition undef_power7 (k : macros) : macros :=
  if negb (_ARCH_PWR7 k) then
    mkMacros (CRYPTOPP_ALTIVEC_AVAILABLE k) false (CRYPTOPP_POWER8_AVAILABLE k)
      (CRYPTOPP_POWER8_AES_AVAILABLE k) (CRYPTOPP_POWER8_VMULL_AVAILABLE k)
      (CRYPTOPP_POWER8_SHA_AVAILABLE k) (__ALTIVEC__ k) (_ARCH_PWR7 k)
      (_ARCH_PWR8 k) (_ARCH_PWR9 k) (__CRYPTO k) (__CRYPTO__ k)
      (CRYPTOPP_DOXYGEN_PROCESSING k)
  else k.

(** Lines 35-40. *)
Definition undef_power8 (k : macros) : macros :=
  if negb (_ARCH_PWR8 k || _ARCH_PWR9 k || __CRYPTO k || __CRYPTO__ k) then
    mkMacros (CRYPTOPP_ALTIVEC_AVAILABLE k) (CRYPTOPP_POWER7_AVAILABLE k)
      false false false false (__ALTIVEC__ k) (_ARCH_PWR7 k)
      (_ARCH_PWR8 k) (_ARCH_PWR9 k) (__CRYPTO k) (__CRYPTO__ k)
      (CRYPTOPP_DOXYGEN_PROCESSING k)
  else k.

(** The macros in force after line 40. *)
Definition feature_macros (k : macros) : macros :=
  undef_power8 (undef_power7 (undef_altivec k)).

(** The conditional blocks of the header and the condition that guards
    each one, read after line 40. *)
Inductive block : Set :=
| AltivecTypes      (* lines 52-59: uint8x16_p, uint16x8_p, uint32x4_p *)
| Uint64x2Type      (* lines 56-58: uint64x2_p *)
| AltivecOps        (* lines 62-282: Reverse ... VectorShiftRight *)
| Power7LoadStore   (* lines 285-441 *)
| AltivecLoadStore  (* lines 443-527 *)
| Power8Crypto.     (* lines 532-658 *)

Definition compiled (k : macros) (b : block) : bool :=
  let f := feature_macros k in
  let doxygen := CRYPTOPP_DOXYGEN_PROCESSING f in
  match b with
  | AltivecTypes => CRYPTOPP_ALTIVEC_AVAILABLE f || doxygen
  | Uint64x2Type =>
      (CRYPTOPP_ALTIVEC_AVAILABLE f || doxygen)
      && (CRYPTOPP_POWER8_AVAILABLE f || doxygen)
  | AltivecOps => CRYPTOPP_ALTIVEC_AVAILABLE f || doxygen
  | Power7LoadStore => CRYPTOPP_POWER7_AVAILABLE f || doxygen
  | AltivecLoadStore => negb (CRYPTOPP_POWER7_AVAILABLE f || doxygen)
  | Power8Crypto => CRYPTOPP_POWER8_AVAILABLE f || doxygen
  end.

(* ------------------------------------------------------------------ *)
(** ** ALTIVEC and above (lines 62-282) *)

(** [const uint8x16_p mask = {15,14,13,12, 11,10,9,8, 7,6,5,4, 3,2,1,0}] *)
Definition reverse_mask : uint8x16_p :=
  vec_lit [15;14;13;12; 11;10;9;8; 7;6;5;4; 3;2;1;0].

Definition Reverse (src : uint8x16_p) : uint8x16_p :=
  vec_perm src src reverse_mask.

Definition VectorPermute2 (vec1 vec2 mask : uint8x16_p) : uint8x16_p :=
  vec_perm vec1 vec2 mask.

Definition VectorPermute (vec mask : uint8x16_p) : uint8x16_p :=
  vec_perm vec vec mask.

Definition VectorAnd (vec1 vec2 : uint8x16_p) : uint8x16_p :=
  vec_and vec1 vec2.

Definition VectorXor (vec1 vec2 : uint8x16_p) : uint8x16_p :=
  vec_xor vec1 vec2.

(** [VectorAdd(vec1, vec2)] (lines 144-148); [T1], the type of [vec1],
    fixes the lane width of the addition. *)
Definition VectorAdd (e : endianness) (T1 : lane_type)
  (vec1 vec2 : uint8x16_p) : uint8x16_p :=
  vec_add e T1 vec1 vec2.

(** Two-vector [VectorShiftLeft<C>(vec1, vec2)] (lines 172-182).  [C] is an
    [unsigned int] template argument, so [16-C] is computed modulo 2^32
    before it is masked. *)
Definition VectorShiftLeft2 (e : endianness) (C : Z) (vec1 vec2 : uint8x16_p)
  : uint8x16_p :=
  match e with
  | BigEndian =>
      let R := Z.land C 15 in
      vec_sld e vec1 vec2 R
  | LittleEndian =>
      let R := Z.land ((16 - C) mod 2 ^ 32) 15 in
      vec_sld e vec2 vec1 R
  end.

(** One-vector [VectorShiftLeft<C>(vec)] (lines 202-214). *)
Definition VectorShiftLeft (e : endianness) (C : Z) (vec : uint8x16_p)
  : uint8x16_p :=
  match e with
  | BigEndian =>
      let R := Z.land C 15 in
      let zero := VectorXor vec vec in
      vec_sld e vec zero R
  | LittleEndian =>
      let R := Z.land ((16 - C) mod 2 ^ 32) 15 in
      let zero := VectorXor vec vec in
      vec_sld e zero vec R
  end.

(** One-vector [VectorShiftRight<C>(vec)] (lines 234-246). *)
Definition VectorShiftRight (e : endianness) (C : Z) (vec : uint8x16_p)
  : uint8x16_p :=
  match e with
  | BigEndian =>
      let R := Z.land C 15 in
      let zero := VectorXor vec vec in
      vec_sld e vec zero R
  | LittleEndian =>
      let R := Z.land ((16 - C) mod 2 ^ 32) 15 in
      let zero := VectorXor vec vec in
      vec_sld e zero vec R
  end.

(** Two-vector [VectorShiftRight<C>(vec1, vec2)] (lines 270-280). *)
Definition VectorShiftRight2 (e : endianness) (C : Z) (vec1 vec2 : uint8x16_p)
  : uint8x16_p :=
  match e with
  | BigEndian =>
      let R := Z.land C 15 in
      vec_sld e vec1 vec2 R
  | LittleEndian =>
      let R := Z.land ((16 - C) mod 2 ^ 32) 15 in
      vec_sld e vec2 vec1 R
  end.

(** The two-vector right shift as the comment above it documents it (lines
    258-260): "On big endian machines VectorShiftRight() is
    vec_sld(b, a, 16-c).  On little endian machines VectorShiftRight() is
    translated to vec_sld(a, b, c)."  Kept apart from the code, for
    comparison only. *)
Definition VectorShiftRight2_documented (e : endianness) (C : Z)
  (a b : uint8x16_p) : uint8x16_p :=
  match e with
  | BigEndian => vec_sld e b a (16 - C)
  | LittleEndian => vec_sld e a b C
  end.

(* ------------------------------------------------------------------ *)
(** ** POWER7 load and store (lines 285-441) *)

Module Power7.

Definition VectorLoadBE_off (cfg : config) (m : mem) (off : Z) (src : addr)
  : uint32x4_p :=
  if xlc cfg then vec_xl_be (host cfg) m off src
  else match host cfg with
       | LittleEndian => Reverse (vec_vsx_ld m off src)
       | BigEndian => vec_vsx_ld m off src
       end.

Definition VectorLoadBE (cfg : config) (m : mem) (src : addr) : uint32x4_p :=
  if xlc cfg then vec_xl_be (host cfg) m 0 src
  else match host cfg with
       | LittleEndian => Reverse (vec_vsx_ld m 0 src)
       | BigEndian => vec_vsx_ld m 0 src
       end.

Definition VectorLoad (cfg : config) (m : mem) (src : addr) : uint32x4_p :=
  if xlc cfg then vec_xl m 0 src else vec_vsx_ld m 0 src.

Definition VectorLoad_off (cfg : config) (m : mem) (off : Z) (src : addr)
  : uint32x4_p :=
  if xlc cfg then vec_xl m off src else vec_vsx_ld m off src.

Definition VectorStoreBE (cfg : config) (src : uint8x16_p) (dest : addr)
  (m : mem) : mem :=
  if xlc cfg then vec_xst_be (host cfg) src 0 dest m
  else match host cfg with
       | LittleEndian => vec_vsx_st (Reverse src) 0 dest m
       | BigEndian => vec_vsx_st src 0 dest m
       end.

Definition VectorStoreBE_off (cfg : config) (src : uint8x16_p) (off : Z)
  (dest : addr) (m : mem) : mem :=
  if xlc cfg then vec_xst_be (host cfg) src off dest m
  else match host cfg with
       | LittleEndian => vec_vsx_st (Reverse src) off dest m
       | BigEndian => vec_vsx_st src off dest m
       end.

Definition VectorStore (cfg : config) (src : uint8x16_p) (dest : addr)
  (m : mem) : mem :=
  if xlc cfg then vec_xst src 0 dest m else vec_vsx_st src 0 dest m.

Definition VectorStore_off (cfg : config) (src : uint8x16_p) (off : Z)
  (dest : addr) (m : mem) : mem :=
  if xlc cfg then vec_xst src off dest m else vec_vsx_st src off dest m.

End Power7.

(* ------------------------------------------------------------------ *)
(** ** Altivec load and store when POWER7 is not available (lines 443-527) *)

Module Altivec.

(** Modelled from the spec: [IsAlignedOn(ptr, alignment)] is defined in
    misc.h, which is not part of this header.  The spec has the slow path
    "detect 16-byte alignment": the test holds when the address is a
    multiple of the alignment. *)
Definition IsAlignedOn (p : addr) (alignment : Z) : bool :=
  p mod alignment =? 0.

(** The body of [VectorLoad] (lines 446-461) assigns the local [data] on
    both branches and ends; it has no [return] statement.  [data] is the
    local at the closing brace, [result] what the caller gets. *)
Record VectorLoad_frame : Type := {
  data : uint8x16_p;
  result : outcome uint32x4_p
}.

Definition VectorLoad_body (m : mem) (src : addr) : VectorLoad_frame :=
  let data :=
    if IsAlignedOn src 16 then
      vec_ld m 0 src
    else
      let perm := vec_lvsl 0 src in
      let low := vec_ld m 0 src in
      let high := vec_ld m 15 src in
      vec_perm low high perm
  in {| data := data; result := NoReturn |}.

Definition VectorLoad (m : mem) (src : addr) : outcome uint32x4_p :=
  result (VectorLoad_body m src).

Definition VectorLoadBE (e : endianness) (m : mem) (src : addr)
  : outcome uint32x4_p :=
  match e with
  | BigEndian => VectorLoad m src
  | LittleEndian =>
      bind (VectorLoad m src) (fun data =>
      let mask := vec_lit [15;14;13;12; 11;10;9;8; 7;6;5;4; 3;2;1;0] in
      Returned (vec_perm data data mask))
  end.

Definition VectorStore (e : endianness) (data : uint32x4_p) (dest : addr)
  (m : mem) : mem :=
  let t1 :=
    match e with
    | LittleEndian =>
        let mask := vec_lit [15;14;13;12; 11;10;9;8; 7;6;5;4; 3;2;1;0] in
        vec_perm data data mask
    | BigEndian => data
    end in
  if IsAlignedOn dest 16 then
    vec_st t1 0 dest m
  else
    let t2 := vec_perm t1 t1 (vec_lvsr 0 dest) in
    let m := vec_ste 1 t2 0 dest m in
    let m := vec_ste 2 t2 1 dest m in
    let m := vec_ste 4 t2 3 dest m in
    let m := vec_ste 4 t2 4 dest m in
    let m := vec_ste 4 t2 8 dest m in
    let m := vec_ste 4 t2 12 dest m in
    let m := vec_ste 2 t2 14 dest m in
    let m := vec_ste 1 t2 15 dest m in
    m.

(** The eight [vec_ste] calls of the unaligned branch as (element size,
    offset) pairs in program order, and the memory after running a prefix
    of them. *)
Definition element_stores : list (Z * Z) :=
  [(1, 0); (2, 1); (4, 3); (4, 4); (4, 8); (4, 12); (2, 14); (1, 15)].

Definition run_element_stores (t2 : uint8x16_p) (dest : addr)
  (stores : list (Z * Z)) (m : mem) : mem :=
  fold_left (fun m so => vec_ste (fst so) t2 (snd so) dest m) stores m.

Definition VectorStoreBE (e : endianness) (src : uint8x16_p) (dest : addr)
  (m : mem) : mem :=
  match e with
  | BigEndian => VectorStore e src dest m
  | LittleEndian =>
      let mask := vec_lit [15;14;13;12; 11;10;9;8; 7;6;5;4; 3;2;1;0] in
      VectorStore e (vec_perm src src mask) dest m
  end.

End Altivec.

(* ------------------------------------------------------------------ *)
(** ** The load and store a translation unit gets *)

(** Exactly one of the two blocks of lines 285-527 is compiled, so the
    name [VectorLoad] (resp. [VectorStore]) denotes the POWER7 function or
    the Altivec one according to the macros in force. *)
Definition VectorLoad_in_unit (k : macros) (cfg : config) (m : mem)
  (src : addr) : outcome uint32x4_p :=
  if compiled k Power7LoadStore then Returned (Power7.VectorLoad cfg m src)
  else Altivec.VectorLoad m src.

Definition VectorStore_in_unit (k : macros) (cfg : config)
  (data : uint32x4_p) (dest : addr) (m : mem) : mem :=
  if compiled k Power7LoadStore then Power7.VectorStore cfg data dest m
  else Altivec.VectorStore (host cfg) data dest m.

(* ------------------------------------------------------------------ *)
(** ** POWER8 crypto (lines 531-658) *)

(** Modelled from the spec: [CRYPTOPP_ASSERT] is a macro of config.h, which
    is not part of this header.  The spec calls [CRYPTOPP_ASSERT(0)] "a
    hard, always-fires consistency assertion" that "terminates execution
    rather than returning a sentinel": a false condition ends the call,
    a true one lets the body continue. *)
Definition CRYPTOPP_ASSERT {A : Type} (exp : bool) (rest : outcome A)
  : outcome A :=
  if exp then rest else AssertionFailed.

Section Power8.

(** The hardware instructions, as opaque functions on vector values.  The
    XL C/C++ built-in [__vcipher] and the GCC built-in
    [__builtin_crypto_vcipher] are kept apart, and so on for the rest. *)
Variables xlc_vcipher gcc_vcipher : uint8x16_p -> uint8x16_p -> uint8x16_p.
Variables xlc_vcipherlast gcc_vcipherlast : uint8x16_p -> uint8x16_p -> uint8x16_p.
Variables xlc_vncipher gcc_vncipher : uint8x16_p -> uint8x16_p -> uint8x16_p.
Variables xlc_vncipherlast gcc_vncipherlast : uint8x16_p -> uint8x16_p -> uint8x16_p.
Variables xlc_vshasigmaw gcc_vshasigmaw : uint32x4_p -> Z -> Z -> uint32x4_p.
Variables xlc_vshasigmad gcc_vshasigmad : uint64x2_p -> Z -> Z -> uint64x2_p.

Definition VectorEncrypt (cfg : config) (state key : uint8x16_p)
  : outcome uint8x16_p :=
  if xlc cfg then Returned (xlc_vcipher state key)
  else if gcc cfg then Returned (gcc_vcipher state key)
  else CRYPTOPP_ASSERT false NoReturn.

Definition VectorEncryptLast (cfg : config) (state key : uint8x16_p)
  : outcome uint8x16_p :=
  if xlc cfg then Returned (xlc_vcipherlast state key)
  else if gcc cfg then Returned (gcc_vcipherlast state key)
  else CRYPTOPP_ASSERT false NoReturn.

Definition VectorDecrypt (cfg : config) (state key : uint8x16_p)
  : outcome uint8x16_p :=
  if xlc cfg then Returned (xlc_vncipher state key)
  else if gcc cfg then Returned (gcc_vncipher state key)
  else CRYPTOPP_ASSERT false NoReturn.

Definition VectorDecryptLast (cfg : config) (state key : uint8x16_p)
  : outcome uint8x16_p :=
  if xlc cfg then Returned (xlc_vncipherlast state key)
  else if gcc cfg then Returned (gcc_vncipherlast state key)
  else CRYPTOPP_ASSERT false NoReturn.

Definition VectorSHA256 (cfg : config) (func subfunc : Z) (vec : uint8x16_p)
  : outcome uint8x16_p :=
  if xlc cfg then Returned (xlc_vshasigmaw vec func subfunc)
  else if gcc cfg then Returned (gcc_vshasigmaw vec func subfunc)
  else CRYPTOPP_ASSERT false NoReturn.

Definition VectorSHA512 (cfg : config) (func subfunc : Z) (vec : uint8x16_p)
  : outcome uint8x16_p :=
  if xlc cfg then Returned (xlc_vshasigmad vec func subfunc)
  else if gcc cfg then Returned (gcc_vshasigmad vec func subfunc)
  else CRYPTOPP_ASSERT false NoReturn.

End Power8.

(* ------------------------------------------------------------------ *)
(** * Properties *)

(** ** Bytes, lists of sixteen, memory *)

(** Split a list known to have 16 elements into its elements. *)
Ltac explode16 v H :=
  unfold is_vector in H;
  do 16 (destruct v as [|? v]; [discriminate H|]);
  destruct v; [clear H | discriminate H].

Lemma byte_xor_self (b : byte) : byte_xor b b = x00.
Proof.
  unfold byte_xor. rewrite Z.lxor_nilpotent. reflexivity.
Qed.

Lemma vec_xor_self (v : uint8x16_p) : vec_xor v v = map (fun _ => x00) v.
Proof.
  unfold vec_xor.
  induction v as [|b v IH]; simpl; [reflexivity|].
  rewrite byte_xor_self. f_equal. exact IH.
Qed.

Lemma be_view_involutive (e : endianness) (v : uint8x16_p) :
  be_view e (be_view e v) = v.
Proof.
  destruct e; simpl; [reflexivity | apply rev_involutive].
Qed.

Lemma be_view_length (e : endianness) (v : uint8x16_p) :
  length (be_view e v) = length v.
Proof.
  destruct e; simpl; [reflexivity | apply length_rev].
Qed.

Lemma load16_length (m : mem) (a : addr) : is_vector (load16 m a).
Proof. reflexivity. Qed.

Lemma store16_inside (m : mem) (a : addr) (v : uint8x16_p) (i : Z) :
  0 <= i < 16 -> store16 m a v (a + i) = nth (Z.to_nat i) v x00.
Proof.
  intros Hi. unfold store16.
  replace ((a <=? a + i) && (a + i <? a + 16)) with true
    by (symmetry; apply andb_true_iff; split;
        [apply Z.leb_le | apply Z.ltb_lt]; lia).
  f_equal. f_equal. lia.
Qed.

Lemma store16_outside (m : mem) (a : addr) (v : uint8x16_p) (x : addr) :
  x < a \/ a + 16 <= x -> store16 m a v x = m x.
Proof.
  intros Hx. unfold store16.
  destruct (a <=? x) eqn:E1; destruct (x <? a + 16) eqn:E2; simpl;
    try reflexivity.
  apply Z.leb_le in E1. apply Z.ltb_lt in E2. lia.
Qed.

(** A native 16-byte load reads back a native 16-byte store. *)
Lemma load16_store16 (m : mem) (a : addr) (v : uint8x16_p) :
  is_vector v -> load16 (store16 m a v) a = v.
Proof.
  intros Hv. explode16 v Hv.
  unfold load16, lanes. simpl map.
  repeat (rewrite store16_inside by lia).
  reflexivity.
Qed.

(** ** Reverse *)

Lemma Reverse_rev (v : uint8x16_p) : is_vector v -> Reverse v = rev v.
Proof.
  intros Hv. explode16 v Hv. reflexivity.
Qed.

Lemma Reverse_length (v : uint8x16_p) : is_vector (Reverse v).
Proof. reflexivity. Qed.

(** C6.  For every 128-bit vector [v], [Reverse (Reverse v) = v]; [Reverse]
    is the one-source permutation with the fixed mask [{15,14,...,0}], and
    byte [i] of the result is byte [15 - i] of the argument (byte 0 swaps
    with byte 15, byte 1 with byte 14, and so on). *)
Theorem Reverse_involution (v : uint8x16_p) :
  is_vector v ->
  Reverse (Reverse v) = v
  /\ Reverse v
     = VectorPermute v (vec_lit [15;14;13;12; 11;10;9;8; 7;6;5;4; 3;2;1;0])
  /\ forall i, (i < 16)%nat -> nth i (Reverse v) x00 = nth (15 - i) v x00.
Proof.
  intros Hv. split; [|split].
  - rewrite (Reverse_rev v Hv).
    rewrite Reverse_rev by (unfold is_vector; rewrite length_rev; exact Hv).
    apply rev_involutive.
  - reflexivity.
  - intros i Hi. rewrite (Reverse_rev v Hv).
    rewrite rev_nth by (rewrite Hv; exact Hi).
    rewrite Hv. f_equal; lia.
Qed.

Lemma Reverse_involution_witness :
  let v := vec_lit [1;2;3;4;5;6;7;8;9;10;11;12;13;14;15;16] in
  is_vector v /\ Reverse (Reverse v) = v.
Proof.
  split; [reflexivity|].
  apply (Reverse_involution
           (vec_lit [1;2;3;4;5;6;7;8;9;10;11;12;13;14;15;16])).
  reflexivity.
Defined.

(** ** Permute *)

(** X8.  One-source [VectorPermute] with the mask [{15,...,0}] is
    [Reverse]; two-source [VectorPermute] with the mask [{0,...,15}]
    selects the first vector and with [{16,...,31}] the second. *)
Lemma VectorPermute_selections (vec1 vec2 : uint8x16_p) :
  is_vector vec1 -> is_vector vec2 ->
  VectorPermute vec1 (vec_lit [15;14;13;12; 11;10;9;8; 7;6;5;4; 3;2;1;0])
  = Reverse vec1
  /\ VectorPermute2 vec1 vec2
       (vec_lit [0;1;2;3;4;5;6;7;8;9;10;11;12;13;14;15]) = vec1
  /\ VectorPermute2 vec1 vec2
       (vec_lit [16;17;18;19;20;21;22;23;24;25;26;27;28;29;30;31]) = vec2.
Proof.
  intros H1 H2. explode16 vec1 H1. explode16 vec2 H2.
  repeat split.
Qed.

(** ** Shifts *)

(** The shift counts handed to [vec_sld]. *)
Lemma R_big_endian (C : Z) : 0 <= C <= 15 -> Z.land C 15 = C.
Proof.
  intros HC. change 15 with (Z.ones 4).
  rewrite Z.land_ones by lia. apply Z.mod_small.
  change (2 ^ 4) with 16. lia.
Qed.

Lemma R_little_endian (C : Z) :
  1 <= C <= 15 -> Z.land ((16 - C) mod 2 ^ 32) 15 = 16 - C.
Proof.
  intros HC. change (2 ^ 32) with 4294967296.
  rewrite (Z.mod_small (16 - C)) by lia.
  change 15 with (Z.ones 4).
  rewrite Z.land_ones by lia. apply Z.mod_small.
  change (2 ^ 4) with 16. lia.
Qed.

(** Shifting the reversed pair left by [16 - k] is shifting the pair
    left by [k], seen in the other byte numbering. *)
Lemma vsldoi_rev (a b : uint8x16_p) (k : nat) :
  is_vector a -> is_vector b -> (k <= 16)%nat ->
  rev (vsldoi (rev b) (rev a) (Z.of_nat (16 - k))) = vsldoi a b (Z.of_nat k).
Proof.
  intros Ha Hb Hk. unfold vsldoi. rewrite !Nat2Z.id.
  rewrite <- rev_app_distr, skipn_rev, firstn_rev, rev_involutive.
  assert (Hlen : length (a ++ b) = 32%nat)
    by (rewrite length_app, Ha, Hb; reflexivity).
  rewrite length_firstn, Hlen.
  replace (Nat.min (32 - (16 - k)) 32 - 16)%nat with k by lia.
  replace (32 - (16 - k))%nat with (k + 16)%nat by lia.
  symmetry. apply firstn_skipn_comm.
Qed.

(** For a count in 1..15 both branches of [VectorShiftLeft2] return the
    16-byte window at offset [C] of [vec1 ++ vec2]. *)
Lemma VectorShiftLeft2_window (e : endianness) (C : Z) (vec1 vec2 : uint8x16_p) :
  is_vector vec1 -> is_vector vec2 -> 1 <= C <= 15 ->
  VectorShiftLeft2 e C vec1 vec2 = firstn 16 (skipn (Z.to_nat C) (vec1 ++ vec2)).
Proof.
  intros H1 H2 HC. destruct e; unfold VectorShiftLeft2, vec_sld, be_view.
  - rewrite R_big_endian by lia. reflexivity.
  - rewrite R_little_endian by lia.
    replace (16 - C) with (Z.of_nat (16 - Z.to_nat C)) by lia.
    rewrite vsldoi_rev by (assumption || lia).
    unfold vsldoi. rewrite Nat2Z.id. reflexivity.
Qed.

(** With count 0 the big-endian branch returns its first argument and the
    little-endian branch, whose count [(16-0) & 0xf] is 0 as well, its
    second. *)
Lemma VectorShiftLeft2_count_0 (vec1 vec2 : uint8x16_p) :
  is_vector vec1 -> is_vector vec2 ->
  VectorShiftLeft2 BigEndian 0 vec1 vec2 = vec1
  /\ VectorShiftLeft2 LittleEndian 0 vec1 vec2 = vec2.
Proof.
  intros H1 H2. explode16 vec1 H1. explode16 vec2 H2.
  split; reflexivity.
Qed.

(** C3.  The two-vector [VectorShiftLeft<0>(a, b)] is [a] on a big-endian
    host and [b] on a little-endian host: at [C = 0] the two hosts do not
    compute the same result.  Evaluated at [a = {0,...,15}],
    [b = {16,...,31}]. *)
Theorem VectorShiftLeft2_count_0_host_dependent :
  let a := vec_lit [0;1;2;3;4;5;6;7;8;9;10;11;12;13;14;15] in
  let b := vec_lit [16;17;18;19;20;21;22;23;24;25;26;27;28;29;30;31] in
  VectorShiftLeft2 BigEndian 0 a b = a
  /\ VectorShiftLeft2 LittleEndian 0 a b = b
  /\ VectorShiftLeft2 BigEndian 0 a b <> VectorShiftLeft2 LittleEndian 0 a b.
Proof.
  vm_compute. repeat split. discriminate.
Qed.

(** The one-vector forms at count 0 on a big-endian host. *)
Lemma VectorShift_count_0_big_endian (v : uint8x16_p) :
  is_vector v ->
  VectorShiftLeft BigEndian 0 v = v /\ VectorShiftRight BigEndian 0 v = v.
Proof.
  intros Hv. explode16 v Hv. split; reflexivity.
Qed.

(** The one-vector forms at count 0 on a little-endian host: the zero
    vector, whatever [v] is. *)
Lemma VectorShift_count_0_little_endian (v : uint8x16_p) :
  is_vector v ->
  VectorShiftLeft LittleEndian 0 v = repeat x00 16
  /\ VectorShiftRight LittleEndian 0 v = repeat x00 16.
Proof.
  intros Hv. explode16 v Hv.
  unfold VectorShiftLeft, VectorShiftRight, VectorXor.
  rewrite vec_xor_self. split; reflexivity.
Qed.

(** C4.  On a little-endian host [VectorShiftLeft<0>(v)] and
    [VectorShiftRight<0>(v)] are the zero vector, not [v]; on a big-endian
    host both are [v].  Evaluated at [v = {1,...,16}]. *)
Theorem VectorShift_count_0_little_endian_not_identity :
  let v := vec_lit [1;2;3;4;5;6;7;8;9;10;11;12;13;14;15;16] in
  VectorShiftLeft LittleEndian 0 v = repeat x00 16
  /\ VectorShiftRight LittleEndian 0 v = repeat x00 16
  /\ VectorShiftLeft LittleEndian 0 v <> v
  /\ VectorShiftRight LittleEndian 0 v <> v
  /\ VectorShiftLeft BigEndian 0 v = v
  /\ VectorShiftRight BigEndian 0 v = v.
Proof.
  vm_compute. repeat split; discriminate.
Qed.

(** C10.  For every count [C] and all [a], [b], the two-vector
    [VectorShiftRight<C>(a, b)] is the two-vector [VectorShiftLeft<C>(a, b)]:
    both are [vec_sld(a, b, C & 0xf)] on a big-endian host and
    [vec_sld(b, a, (16-C) & 0xf)] on a little-endian host. *)
Theorem VectorShiftRight2_is_VectorShiftLeft2 (e : endianness) (C : Z)
  (a b : uint8x16_p) :
  VectorShiftRight2 e C a b = VectorShiftLeft2 e C a b
  /\ VectorShiftRight2 BigEndian C a b = vec_sld BigEndian a b (Z.land C 15)
  /\ VectorShiftLeft2 BigEndian C a b = vec_sld BigEndian a b (Z.land C 15)
  /\ VectorShiftRight2 LittleEndian C a b
     = vec_sld LittleEndian b a (Z.land ((16 - C) mod 2 ^ 32) 15)
  /\ VectorShiftLeft2 LittleEndian C a b
     = vec_sld LittleEndian b a (Z.land ((16 - C) mod 2 ^ 32) 15).
Proof.
  split; [destruct e; reflexivity|].
  split; [reflexivity|]. split; [reflexivity|]. split; reflexivity.
Qed.

(** Case split on a shift count known to lie in 1..15. *)
Ltac count_cases C HC :=
  let H := fresh "H" in
  assert (H : C = 1 \/ C = 2 \/ C = 3 \/ C = 4 \/ C = 5 \/ C = 6 \/ C = 7
              \/ C = 8 \/ C = 9 \/ C = 10 \/ C = 11 \/ C = 12 \/ C = 13
              \/ C = 14 \/ C = 15) by lia;
  clear HC;
  repeat (destruct H as [H | H]; [subst C | ]); [ .. | subst C].

(** The round trip through the two-vector left shift and the right shift
    as its comment documents it.  [shifted] is [v] moved left by [C] bytes
    and [dropped] holds the [C] bytes that left the vector; the documented
    right shift of the pair gives [v] back, on either host. *)
Lemma shift_round_trip_documented (e : endianness) (C : Z) (v : uint8x16_p) :
  is_vector v -> 1 <= C <= 15 ->
  let zero := VectorXor v v in
  let shifted := VectorShiftLeft2 e C v zero in
  let dropped := VectorShiftLeft2 e C zero v in
  VectorShiftRight2_documented e C shifted dropped = v.
Proof.
  intros Hv HC. explode16 v Hv.
  unfold VectorXor. rewrite vec_xor_self.
  count_cases C HC; destruct e; reflexivity.
Qed.

(** C5.  With the code's [VectorShiftRight2] the round trip does not give
    [v] back.  At [C = 4] and [v = {1,...,16}], on either host: the left
    shift keeps bytes 4..15 of [v] in [shifted] and the four dropped bytes
    are in [dropped]; [VectorShiftRight2], being the same function as
    [VectorShiftLeft2], shifts the pair left once more, in whichever order
    the two halves are passed, and the one-vector pair loses bytes too.
    The right shift documented above the function does reconstruct [v]. *)
Theorem shift_round_trip_fails :
  forall e : endianness,
  let v := vec_lit [1;2;3;4;5;6;7;8;9;10;11;12;13;14;15;16] in
  let zero := VectorXor v v in
  let shifted := VectorShiftLeft2 e 4 v zero in
  let dropped := VectorShiftLeft2 e 4 zero v in
  shifted = vec_lit [5;6;7;8;9;10;11;12;13;14;15;16;0;0;0;0]
  /\ dropped = vec_lit [0;0;0;0;0;0;0;0;0;0;0;0;1;2;3;4]
  /\ VectorShiftRight2 e 4 shifted dropped
     = vec_lit [9;10;11;12;13;14;15;16;0;0;0;0;0;0;0;0]
  /\ VectorShiftRight2 e 4 dropped shifted
     = vec_lit [0;0;0;0;0;0;0;0;1;2;3;4;5;6;7;8]
  /\ VectorShiftRight2 e 4 shifted dropped <> v
  /\ VectorShiftRight2 e 4 dropped shifted <> v
  /\ VectorShiftRight e 4 (VectorShiftLeft e 4 v) <> v
  /\ VectorShiftRight2_documented e 4 shifted dropped = v.
Proof.
  intros e. destruct e; vm_compute; repeat split; discriminate.
Qed.

(** ** POWER7 load and store *)

(** On the POWER7 paths a store followed by a load from the same place,
    with the same offset, gives the stored vector back; both compilers,
    both hosts, any address and offset. *)
Lemma Power7_store_load (cfg : config) (v : uint8x16_p) (off : Z)
  (dest : addr) (m : mem) :
  is_vector v ->
  Power7.VectorLoad cfg (Power7.VectorStore cfg v dest m) dest = v
  /\ Power7.VectorLoad_off cfg (Power7.VectorStore_off cfg v off dest m)
       off dest = v.
Proof.
  intros Hv.
  unfold Power7.VectorLoad, Power7.VectorStore, Power7.VectorLoad_off,
    Power7.VectorStore_off, vec_xl, vec_xst, vec_vsx_ld, vec_vsx_st.
  destruct (xlc cfg); split; apply load16_store16; exact Hv.
Qed.

(** On a little-endian host, on the POWER7 paths of either compiler (the
    XL C/C++ path uses [vec_xl_be] / [vec_xst_be]), for all memory
    contents, addresses, offsets and vectors [v]: [VectorLoadBE] is
    [Reverse] of [VectorLoad], and a native [VectorLoad] after
    [VectorStoreBE] of [v] yields [Reverse v]. *)
Lemma Power7_big_endian_paths_are_native_plus_Reverse (x g : bool) (m : mem)
  (src dest : addr) (off : Z) (v : uint8x16_p) :
  is_vector v ->
  let cfg := mkConfig LittleEndian x g in
  Power7.VectorLoadBE cfg m src = Reverse (Power7.VectorLoad cfg m src)
  /\ Power7.VectorLoadBE_off cfg m off src
     = Reverse (Power7.VectorLoad_off cfg m off src)
  /\ Power7.VectorLoad cfg (Power7.VectorStoreBE cfg v dest m) dest
     = Reverse v
  /\ Power7.VectorLoad_off cfg (Power7.VectorStoreBE_off cfg v off dest m)
       off dest = Reverse v.
Proof.
  intros Hv cfg.
  assert (Hrev : is_vector (rev v))
    by (unfold is_vector; rewrite length_rev; exact Hv).
  unfold Power7.VectorLoadBE, Power7.VectorLoadBE_off, Power7.VectorLoad,
    Power7.VectorLoad_off, Power7.VectorStoreBE, Power7.VectorStoreBE_off,
    vec_xl_be, vec_xst_be, vec_xl, vec_vsx_ld, vec_vsx_st.
  destruct x; simpl.
  - rewrite !Reverse_rev by (assumption || apply load16_length).
    rewrite !load16_store16 by exact Hrev.
    repeat split; reflexivity.
  - rewrite !load16_store16 by apply Reverse_length.
    repeat split; reflexivity.
Qed.

(** ** Altivec load and store *)

Lemma byte_to_of_Z (z : Z) : 0 <= z < 256 -> byte_to_Z (byte_of_Z z) = z.
Proof.
  intros Hz. unfold byte_of_Z, byte_to_Z.
  rewrite Z.mod_small by exact Hz.
  destruct (Byte.of_N (Z.to_N z)) as [b|] eqn:E.
  - apply Byte.to_of_N in E. rewrite E. lia.
  - apply Byte.of_N_None_iff in E. lia.
Qed.

Lemma land_31 (z : Z) : 0 <= z < 32 -> Z.land z 31 = z.
Proof.
  intros Hz. change 31 with (Z.ones 5).
  rewrite Z.land_ones by lia. apply Z.mod_small.
  change (2 ^ 5) with 32. exact Hz.
Qed.

Lemma nth_lanes (i : nat) : (i < 16)%nat -> nth i lanes 0 = Z.of_nat i.
Proof.
  intros Hi. unfold lanes. change 0 with (Z.of_nat 0).
  rewrite map_nth, seq_nth by exact Hi. reflexivity.
Qed.

Lemma nth_map_lanes (f : Z -> byte) (i : nat) :
  (i < 16)%nat -> nth i (map f lanes) x00 = f (Z.of_nat i).
Proof.
  intros Hi.
  rewrite (nth_indep _ x00 (f 0)) by (rewrite length_map; exact Hi).
  rewrite map_nth, nth_lanes by exact Hi. reflexivity.
Qed.

Lemma nth_load16 (m : mem) (a : addr) (i : nat) :
  (i < 16)%nat -> nth i (load16 m a) x00 = m (a + Z.of_nat i).
Proof. apply nth_map_lanes. Qed.

Lemma nth_vec_perm (a b mask : uint8x16_p) (i : nat) :
  (i < length mask)%nat ->
  nth i (vec_perm a b mask) x00
  = nth (Z.to_nat (Z.land (byte_to_Z (nth i mask x00)) 31)) (a ++ b) x00.
Proof.
  intros Hi. unfold vec_perm.
  rewrite (nth_indep _ x00
             (nth (Z.to_nat (Z.land (byte_to_Z x00) 31)) (a ++ b) x00))
    by (rewrite length_map; exact Hi).
  apply (map_nth (fun k => nth (Z.to_nat (Z.land (byte_to_Z k) 31)) (a ++ b) x00)).
Qed.

Lemma align_down_aligned (p : addr) :
  Altivec.IsAlignedOn p 16 = true -> align_down (p + 0) 16 = p.
Proof.
  unfold Altivec.IsAlignedOn, align_down. intros H.
  apply Z.eqb_eq in H. rewrite Z.add_0_r, H. lia.
Qed.

(** The local [data] of the Altivec [VectorLoad] holds, at the end of the
    body, the 16 bytes at [src], whatever the alignment of [src]. *)
Lemma Altivec_VectorLoad_data (m : mem) (src : addr) :
  Altivec.data (Altivec.VectorLoad_body m src) = load16 m src.
Proof.
  unfold Altivec.VectorLoad_body.
  cbv beta iota zeta delta [Altivec.data].
  destruct (Altivec.IsAlignedOn src 16) eqn:E.
  - unfold vec_ld. rewrite align_down_aligned by exact E. reflexivity.
  - unfold Altivec.IsAlignedOn in E. apply Z.eqb_neq in E.
    assert (Hr : 0 <= src mod 16 < 16) by (apply Z.mod_pos_bound; lia).
    apply (nth_ext _ _ x00 x00); [reflexivity|].
    intros i Hi. change (length _) with 16%nat in Hi.
    rewrite nth_vec_perm by exact Hi.
    unfold vec_lvsl. rewrite nth_map_lanes by exact Hi.
    rewrite Z.add_0_r, byte_to_of_Z, land_31 by lia.
    rewrite nth_load16 by exact Hi.
    destruct (Z_lt_le_dec (src mod 16 + Z.of_nat i) 16) as [Hlt | Hge].
    + rewrite app_nth1 by (change (length _) with 16%nat; lia).
      unfold vec_ld. rewrite nth_load16 by lia.
      f_equal. unfold align_down. rewrite Z.add_0_r. lia.
    + rewrite app_nth2 by (change (length (vec_ld m 0 src)) with 16%nat; lia).
      change (length (vec_ld m 0 src)) with 16%nat.
      unfold vec_ld. rewrite nth_load16 by lia.
      f_equal. unfold align_down.
      assert (H15 : (src + 15) mod 16 = src mod 16 - 1).
      { rewrite (Z.div_mod src 16) at 1 by lia.
        replace (16 * (src / 16) + src mod 16 + 15)
          with (src mod 16 - 1 + (src / 16 + 1) * 16) by lia.
        rewrite Z.mod_add by lia. apply Z.mod_small. lia. }
      rewrite H15. lia.
Qed.

(** C7.  The Altivec [VectorLoad] computes in its local [data] the direct
    aligned read for an aligned source and the permute of the low and
    high aligned reads for an unaligned one, and [data] is then the 16
    bytes at [src]; but the body ends without a [return] statement, so no
    call returns that value, or any value. *)
Theorem Altivec_VectorLoad_does_not_return (m : mem) (src : addr) :
  Altivec.VectorLoad m src = NoReturn
  /\ (forall r, Altivec.VectorLoad m src <> Returned r)
  /\ Altivec.data (Altivec.VectorLoad_body m src)
     = (if Altivec.IsAlignedOn src 16 then vec_ld m 0 src
        else vec_perm (vec_ld m 0 src) (vec_ld m 15 src) (vec_lvsl 0 src))
  /\ Altivec.data (Altivec.VectorLoad_body m src) = load16 m src.
Proof.
  split; [reflexivity|]. split; [intros r; discriminate|].
  split; [reflexivity|]. apply Altivec_VectorLoad_data.
Qed.

(** A [vec_ste] of an [s]-byte element at offset [off] writes inside
    [p + off - s + 1 .. p + off + s - 1]. *)
Lemma vec_ste_frame (s : Z) (v : uint8x16_p) (off : Z) (p : addr) (m : mem)
  (x : addr) :
  0 < s -> x <= p + off - s \/ p + off + s <= x ->
  vec_ste s v off p m x = m x.
Proof.
  intros Hs Hx. unfold vec_ste, align_down.
  assert (Hr : 0 <= (p + off) mod s < s) by (apply Z.mod_pos_bound; exact Hs).
  destruct (p + off - (p + off) mod s <=? x) eqn:E1;
    destruct (x <? p + off - (p + off) mod s + s) eqn:E2; simpl;
    try reflexivity.
  apply Z.leb_le in E1. apply Z.ltb_lt in E2. lia.
Qed.

Lemma In_firstn {A : Type} (k : nat) (l : list A) (a : A) :
  In a (firstn k l) -> In a l.
Proof.
  intros H. rewrite <- (firstn_skipn k l). apply in_or_app. left. exact H.
Qed.

(** Element stores whose size and offset keep them inside the 16-byte
    window leave every byte outside the window as it was. *)
Lemma run_element_stores_frame (t2 : uint8x16_p) (dest : addr)
  (stores : list (Z * Z)) (x : addr) :
  (forall so, In so stores ->
     0 < fst so /\ fst so - 1 <= snd so /\ snd so + fst so <= 16) ->
  x < dest \/ dest + 16 <= x ->
  forall m, Altivec.run_element_stores t2 dest stores m x = m x.
Proof.
  intros Hin Hx. unfold Altivec.run_element_stores.
  induction stores as [|so stores IH]; intros m; simpl; [reflexivity|].
  rewrite IH by (intros so' H'; apply Hin; right; exact H').
  destruct (Hin so (or_introl eq_refl)) as [Hs [Hlo Hhi]].
  apply vec_ste_frame; lia.
Qed.

Lemma element_stores_in_window (so : Z * Z) :
  In so Altivec.element_stores ->
  0 < fst so /\ fst so - 1 <= snd so /\ snd so + fst so <= 16.
Proof.
  unfold Altivec.element_stores. simpl.
  intros H. repeat (destruct H as [<- | H]; [simpl; lia|]). contradiction.
Qed.

(** The unaligned branch of [VectorStore] runs the eight element stores
    in order on the rotated vector [t2]. *)
Lemma Altivec_VectorStore_unaligned (e : endianness) (data : uint32x4_p)
  (dest : addr) (m : mem) :
  Altivec.IsAlignedOn dest 16 = false ->
  let t1 := match e with BigEndian => data | LittleEndian => Reverse data end in
  Altivec.VectorStore e data dest m
  = Altivec.run_element_stores (vec_perm t1 t1 (vec_lvsr 0 dest)) dest
      Altivec.element_stores m.
Proof.
  intros E t1. unfold Altivec.VectorStore. rewrite E.
  destruct e; reflexivity.
Qed.

(** C8.  For every vector, destination address (aligned or not), host and
    memory, the Altivec [VectorStore] leaves every byte outside
    [dest .. dest+15] unchanged; and in the unaligned branch the same
    holds after each prefix of the eight [vec_ste] element stores, so no
    one of them writes outside the window. *)
Theorem Altivec_VectorStore_frame (e : endianness) (data : uint32x4_p)
  (dest : addr) (m : mem) (x : addr) :
  x < dest \/ dest + 16 <= x ->
  Altivec.VectorStore e data dest m x = m x
  /\ forall (t2 : uint8x16_p) (k : nat),
       Altivec.run_element_stores t2 dest
         (firstn k Altivec.element_stores) m x = m x.
Proof.
  intros Hx. split.
  - unfold Altivec.VectorStore.
    destruct (Altivec.IsAlignedOn dest 16) eqn:E.
    + unfold vec_st. rewrite align_down_aligned by exact E.
      apply store16_outside. exact Hx.
    + apply (run_element_stores_frame _ dest Altivec.element_stores x
               element_stores_in_window Hx m).
  - intros t2 k. apply run_element_stores_frame; [|exact Hx].
    intros so Hso. apply element_stores_in_window.
    apply (In_firstn k). exact Hso.
Qed.

Lemma Altivec_VectorStore_frame_witness :
  let v := vec_lit [1;2;3;4;5;6;7;8;9;10;11;12;13;14;15;16] in
  (4 < 5 \/ 5 + 16 <= 4)
  /\ Altivec.VectorStore BigEndian v 5 (fun _ => xff) 4 = xff.
Proof.
  split; [left; lia|].
  apply (Altivec_VectorStore_frame BigEndian
           (vec_lit [1;2;3;4;5;6;7;8;9;10;11;12;13;14;15;16]) 5
           (fun _ => xff) 4).
  left; lia.
Defined.

(** A byte written by [vec_ste] is the byte of the vector at the
    position of the address within its quadword; a later [vec_ste] of the
    same vector keeps it. *)
Lemma vec_ste_hit (s : Z) (v : uint8x16_p) (off : Z) (p : addr) (m : mem)
  (x : addr) :
  align_down (p + off) s <= x < align_down (p + off) s + s ->
  vec_ste s v off p m x = nth (Z.to_nat (x mod 16)) v x00.
Proof.
  intros [H1 H2]. unfold vec_ste.
  apply Z.leb_le in H1. apply Z.ltb_lt in H2. rewrite H1, H2. reflexivity.
Qed.

Lemma vec_ste_keep (s : Z) (v : uint8x16_p) (off : Z) (p : addr) (m : mem)
  (x : addr) :
  m x = nth (Z.to_nat (x mod 16)) v x00 ->
  vec_ste s v off p m x = nth (Z.to_nat (x mod 16)) v x00.
Proof.
  intros H. unfold vec_ste.
  destruct ((align_down (p + off) s <=? x) && (x <? align_down (p + off) s + s));
    [reflexivity | exact H].
Qed.

(** Every byte of the window is written by one of the eight element
    stores, whatever the alignment. *)
Lemma element_stores_cover (dest : addr) (i : Z) :
  0 <= i < 16 ->
  let x := dest + i in
  let hit s off := align_down (dest + off) s <= x < align_down (dest + off) s + s in
  hit 1 0 \/ hit 2 1 \/ hit 4 3 \/ hit 4 4 \/ hit 4 8 \/ hit 4 12
  \/ hit 2 14 \/ hit 1 15.
Proof.
  intros Hi x hit. subst x hit. cbv beta. unfold align_down.
  rewrite !Z.mod_1_r.
  pose proof (Z.mod_pos_bound (dest + 1) 2 ltac:(lia)).
  pose proof (Z.mod_pos_bound (dest + 14) 2 ltac:(lia)).
  pose proof (Z.mod_pos_bound (dest + 3) 4 ltac:(lia)).
  pose proof (Z.mod_pos_bound (dest + 4) 4 ltac:(lia)).
  pose proof (Z.mod_pos_bound (dest + 8) 4 ltac:(lia)).
  pose proof (Z.mod_pos_bound (dest + 12) 4 ltac:(lia)).
  pose proof (Z.div_mod (dest + 1) 2 ltac:(lia)).
  pose proof (Z.div_mod (dest + 14) 2 ltac:(lia)).
  pose proof (Z.div_mod (dest + 3) 4 ltac:(lia)).
  pose proof (Z.div_mod (dest + 4) 4 ltac:(lia)).
  pose proof (Z.div_mod (dest + 8) 4 ltac:(lia)).
  pose proof (Z.div_mod (dest + 12) 4 ltac:(lia)).
  lia.
Qed.

(** [vec_perm(t1, t1, vec_lvsr(0, dest))] rotates [t1] so that the byte
    meant for address [dest + i] sits at position [(dest + i) mod 16]. *)
Lemma nth_store_rotation (t1 : uint8x16_p) (dest : addr) (i : Z) :
  is_vector t1 -> 0 <= i < 16 ->
  nth (Z.to_nat ((dest + i) mod 16)) (vec_perm t1 t1 (vec_lvsr 0 dest)) x00
  = nth (Z.to_nat i) t1 x00.
Proof.
  intros Hv Hi.
  assert (Hr : 0 <= dest mod 16 < 16) by (apply Z.mod_pos_bound; lia).
  assert (Hj : 0 <= (dest + i) mod 16 < 16) by (apply Z.mod_pos_bound; lia).
  rewrite nth_vec_perm by (change (length _) with 16%nat; lia).
  unfold vec_lvsr. rewrite nth_map_lanes by lia.
  rewrite Z2Nat.id, Z.add_0_r, byte_to_of_Z, land_31 by lia.
  rewrite <- (Z.add_mod_idemp_l dest i 16) in * by lia.
  destruct (Z_lt_le_dec (dest mod 16 + i) 16) as [Hlt | Hge].
  - rewrite (Z.mod_small (dest mod 16 + i)) by lia.
    rewrite app_nth2 by (rewrite Hv; lia).
    rewrite Hv. f_equal. lia.
  - replace (dest mod 16 + i) with (dest mod 16 + i - 16 + 1 * 16) by lia.
    rewrite Z.mod_add, (Z.mod_small (dest mod 16 + i - 16)) by lia.
    rewrite app_nth1 by (rewrite Hv; lia).
    f_equal. lia.
Qed.

(** After the eight element stores of the rotated vector, the window
    holds [t1]. *)
Lemma run_element_stores_byte (t1 : uint8x16_p) (dest : addr) (m : mem)
  (i : Z) :
  is_vector t1 -> 0 <= i < 16 ->
  Altivec.run_element_stores (vec_perm t1 t1 (vec_lvsr 0 dest)) dest
    Altivec.element_stores m (dest + i)
  = nth (Z.to_nat i) t1 x00.
Proof.
  intros Ht1 Hi.
  rewrite <- (nth_store_rotation t1 dest i Ht1 Hi).
  unfold Altivec.run_element_stores, Altivec.element_stores.
  cbn [fold_left fst snd].
  destruct (element_stores_cover dest i Hi)
    as [H | [H | [H | [H | [H | [H | [H | H]]]]]]];
    repeat first [ apply vec_ste_hit; exact H | apply vec_ste_keep ].
Qed.

(** What the Altivec [VectorStore] leaves at [dest .. dest+15]: the
    vector itself on a big-endian host, and the byte-reversed vector on a
    little-endian host, aligned or not. *)
Lemma Altivec_VectorStore_byte (e : endianness) (data : uint32x4_p)
  (dest : addr) (m : mem) (i : Z) :
  is_vector data -> 0 <= i < 16 ->
  Altivec.VectorStore e data dest m (dest + i)
  = nth (Z.to_nat i) (be_view e data) x00.
Proof.
  intros Hv Hi.
  destruct (Altivec.IsAlignedOn dest 16) eqn:E.
  - unfold Altivec.VectorStore. rewrite E.
    unfold vec_st. rewrite align_down_aligned by exact E.
    rewrite store16_inside by exact Hi.
    destruct e; simpl be_view; [reflexivity|].
    rewrite <- Reverse_rev by exact Hv. reflexivity.
  - pose proof (Altivec_VectorStore_unaligned e data dest m E) as HU.
    cbv zeta in HU. rewrite HU. clear HU.
    destruct e; simpl be_view.
    + apply run_element_stores_byte; assumption.
    + rewrite <- Reverse_rev by exact Hv.
      apply run_element_stores_byte; [apply Reverse_length | exact Hi].
Qed.

Lemma Altivec_VectorStore_image (e : endianness) (data : uint32x4_p)
  (dest : addr) (m : mem) :
  is_vector data ->
  load16 (Altivec.VectorStore e data dest m) dest = be_view e data.
Proof.
  intros Hv.
  apply (nth_ext _ _ x00 x00);
    [rewrite be_view_length; symmetry; exact Hv|].
  intros n Hn. change (length _) with 16%nat in Hn.
  rewrite nth_load16 by exact Hn.
  rewrite Altivec_VectorStore_byte by (assumption || lia).
  rewrite Nat2Z.id. reflexivity.
Qed.

(** The Altivec [VectorStoreBE] leaves the vector in native element
    order on both hosts: on a little-endian host its reversal and the one
    inside [VectorStore] cancel. *)
Lemma Altivec_VectorStoreBE_image (e : endianness) (src : uint8x16_p)
  (dest : addr) (m : mem) :
  is_vector src ->
  load16 (Altivec.VectorStoreBE e src dest m) dest = src.
Proof.
  intros Hv. unfold Altivec.VectorStoreBE. destruct e.
  - apply (Altivec_VectorStore_image BigEndian src dest m Hv).
  - change (vec_perm src src
              (vec_lit [15;14;13;12; 11;10;9;8; 7;6;5;4; 3;2;1;0]))
      with (Reverse src).
    rewrite Altivec_VectorStore_image by apply Reverse_length.
    unfold be_view. rewrite Reverse_rev by exact Hv. apply rev_involutive.
Qed.

(** C1.  On the Altivec paths a store followed by a load does not return
    the stored vector: the Altivec [VectorLoad] returns no value, on
    either host; and on a little-endian host the Altivec [VectorStore]
    has left the byte-reversed vector in memory.  Evaluated at
    [v = {1,...,16}], address 5, over zeroed memory; the POWER7 paths do
    return [v] there. *)
Theorem Altivec_store_load_does_not_round_trip :
  let v := vec_lit [1;2;3;4;5;6;7;8;9;10;11;12;13;14;15;16] in
  let m0 : mem := fun _ => x00 in
  Altivec.VectorLoad (Altivec.VectorStore BigEndian v 5 m0) 5 = NoReturn
  /\ Altivec.VectorLoad (Altivec.VectorStore LittleEndian v 5 m0) 5 = NoReturn
  /\ Altivec.VectorLoad (Altivec.VectorStore BigEndian v 5 m0) 5 <> Returned v
  /\ Altivec.VectorLoad (Altivec.VectorStore LittleEndian v 5 m0) 5 <> Returned v
  /\ load16 (Altivec.VectorStore LittleEndian v 5 m0) 5
     = vec_lit [16;15;14;13;12;11;10;9;8;7;6;5;4;3;2;1]
  /\ load16 (Altivec.VectorStore LittleEndian v 5 m0) 5 <> v
  /\ load16 (Altivec.VectorStore BigEndian v 5 m0) 5 = v
  /\ (forall cfg, Power7.VectorLoad cfg (Power7.VectorStore cfg v 5 m0) 5 = v).
Proof.
  intros v m0.
  split; [reflexivity|]. split; [reflexivity|].
  split; [discriminate|]. split; [discriminate|].
  split; [vm_compute; reflexivity|].
  split; [vm_compute; discriminate|].
  split; [vm_compute; reflexivity|].
  intros cfg. apply (Power7_store_load cfg v 0 5 m0). reflexivity.
Qed.

(** C2.  On a little-endian host the Altivec big-endian paths are not the
    native load or store composed with [Reverse].  Evaluated at
    [v = {1,...,16}], address 5, over zeroed memory: after the Altivec
    [VectorStoreBE] of [v] the 16 bytes at the address are [v] itself, not
    [Reverse v] (the reversal in [VectorStoreBE] and the one inside
    [VectorStore] cancel), and the native [VectorLoad] that follows
    returns no value; on memory holding [v] the Altivec [VectorLoadBE]
    returns no value, so it does not return [Reverse] of the bytes
    either.  On the POWER7 paths of either compiler the same calls give
    [Reverse v]. *)
Theorem Altivec_big_endian_paths_are_not_native_plus_Reverse :
  let v := vec_lit [1;2;3;4;5;6;7;8;9;10;11;12;13;14;15;16] in
  let m0 : mem := fun _ => x00 in
  let stored := Altivec.VectorStoreBE LittleEndian v 5 m0 in
  let holding_v := store16 m0 5 v in
  load16 stored 5 = v
  /\ Reverse v = vec_lit [16;15;14;13;12;11;10;9;8;7;6;5;4;3;2;1]
  /\ load16 stored 5 <> Reverse v
  /\ Altivec.VectorLoad stored 5 = NoReturn
  /\ Altivec.VectorLoad stored 5 <> Returned (Reverse v)
  /\ Altivec.VectorLoadBE LittleEndian holding_v 5 = NoReturn
  /\ Altivec.VectorLoadBE LittleEndian holding_v 5
     <> Returned (Reverse (load16 holding_v 5))
  /\ (forall x g,
        let cfg := mkConfig LittleEndian x g in
        Power7.VectorLoad cfg (Power7.VectorStoreBE cfg v 5 m0) 5 = Reverse v
        /\ load16 (Power7.VectorStoreBE cfg v 5 m0) 5 = Reverse v
        /\ Power7.VectorLoadBE cfg holding_v 5
           = Reverse (Power7.VectorLoad cfg holding_v 5)).
Proof.
  intros v m0 stored holding_v.
  split; [vm_compute; reflexivity|].
  split; [vm_compute; reflexivity|].
  split; [vm_compute; discriminate|].
  split; [reflexivity|]. split; [discriminate|].
  split; [reflexivity|]. split; [discriminate|].
  intros x g cfg. destruct x; vm_compute; repeat split.
Qed.

(** ** POWER8 crypto *)

Section Power8_properties.

Variables xlc_vcipher gcc_vcipher : uint8x16_p -> uint8x16_p -> uint8x16_p.
Variables xlc_vcipherlast gcc_vcipherlast : uint8x16_p -> uint8x16_p -> uint8x16_p.
Variables xlc_vncipher gcc_vncipher : uint8x16_p -> uint8x16_p -> uint8x16_p.
Variables xlc_vncipherlast gcc_vncipherlast : uint8x16_p -> uint8x16_p -> uint8x16_p.
Variables xlc_vshasigmaw gcc_vshasigmaw : uint32x4_p -> Z -> Z -> uint32x4_p.
Variables xlc_vshasigmad gcc_vshasigmad : uint64x2_p -> Z -> Z -> uint64x2_p.

Local Abbreviation Encrypt := (VectorEncrypt xlc_vcipher gcc_vcipher).
Local Abbreviation EncryptLast := (VectorEncryptLast xlc_vcipherlast gcc_vcipherlast).
Local Abbreviation Decrypt := (VectorDecrypt xlc_vncipher gcc_vncipher).
Local Abbreviation DecryptLast := (VectorDecryptLast xlc_vncipherlast gcc_vncipherlast).
Local Abbreviation SHA256 := (VectorSHA256 xlc_vshasigmaw gcc_vshasigmaw).
Local Abbreviation SHA512 := (VectorSHA512 xlc_vshasigmad gcc_vshasigmad).

(** C9.  For every input, each of [VectorEncrypt], [VectorEncryptLast],
    [VectorDecrypt], [VectorDecryptLast], [VectorSHA256] and [VectorSHA512]
    built with neither [CRYPTOPP_XLC_VERSION] nor [CRYPTOPP_GCC_VERSION]
    defined ends in the fired [CRYPTOPP_ASSERT(0)] and returns no value;
    with the XL C/C++ macro defined it returns the XL C/C++ built-in's
    result, with only the GCC macro defined the GCC built-in's, and in
    general the assertion fires exactly when neither macro is defined. *)
Theorem crypto_ops_assert_without_toolchain (h : endianness) (cfg : config)
  (state key vec : uint8x16_p) (func subfunc : Z) :
  let neither := mkConfig h false false in
  let with_gcc := mkConfig h false true in
  (Encrypt neither state key = AssertionFailed
   /\ EncryptLast neither state key = AssertionFailed
   /\ Decrypt neither state key = AssertionFailed
   /\ DecryptLast neither state key = AssertionFailed
   /\ SHA256 neither func subfunc vec = AssertionFailed
   /\ SHA512 neither func subfunc vec = AssertionFailed)
  /\ (forall g,
        let with_xlc := mkConfig h true g in
        Encrypt with_xlc state key = Returned (xlc_vcipher state key)
        /\ EncryptLast with_xlc state key = Returned (xlc_vcipherlast state key)
        /\ Decrypt with_xlc state key = Returned (xlc_vncipher state key)
        /\ DecryptLast with_xlc state key = Returned (xlc_vncipherlast state key)
        /\ SHA256 with_xlc func subfunc vec
           = Returned (xlc_vshasigmaw vec func subfunc)
        /\ SHA512 with_xlc func subfunc vec
           = Returned (xlc_vshasigmad vec func subfunc))
  /\ (Encrypt with_gcc state key = Returned (gcc_vcipher state key)
      /\ EncryptLast with_gcc state key = Returned (gcc_vcipherlast state key)
      /\ Decrypt with_gcc state key = Returned (gcc_vncipher state key)
      /\ DecryptLast with_gcc state key = Returned (gcc_vncipherlast state key)
      /\ SHA256 with_gcc func subfunc vec
         = Returned (gcc_vshasigmaw vec func subfunc)
      /\ SHA512 with_gcc func subfunc vec
         = Returned (gcc_vshasigmad vec func subfunc))
  /\ (assertion_fired (Encrypt cfg state key) = negb (xlc cfg || gcc cfg)
      /\ assertion_fired (EncryptLast cfg state key) = negb (xlc cfg || gcc cfg)
      /\ assertion_fired (Decrypt cfg state key) = negb (xlc cfg || gcc cfg)
      /\ assertion_fired (DecryptLast cfg state key) = negb (xlc cfg || gcc cfg)
      /\ assertion_fired (SHA256 cfg func subfunc vec) = negb (xlc cfg || gcc cfg)
      /\ assertion_fired (SHA512 cfg func subfunc vec)
         = negb (xlc cfg || gcc cfg)).
Proof.
  intros neither with_gcc.
  split; [repeat split|]. split; [intros g with_xlc; repeat split|].
  split; [repeat split|].
  unfold VectorEncrypt, VectorEncryptLast, VectorDecrypt, VectorDecryptLast,
    VectorSHA256, VectorSHA512.
  destruct (xlc cfg), (gcc cfg); repeat split.
Qed.

End Power8_properties.

(* ------------------------------------------------------------------ *)
(** * Further properties *)

(** ** Shift counts *)

Lemma land_15 (z : Z) : Z.land z 15 = z mod 16.
Proof.
  change 15 with (Z.ones 4). rewrite Z.land_ones by lia. reflexivity.
Qed.

Lemma land_15_range (z : Z) : 0 <= Z.land z 15 <= 15.
Proof.
  rewrite land_15.
  pose proof (Z.mod_pos_bound z 16 ltac:(lia)). lia.
Qed.

Lemma R_little_endian_mod (C : Z) :
  Z.land ((16 - C) mod 2 ^ 32) 15 = (16 - C) mod 16.
Proof.
  rewrite land_15. apply Z.mod_mod_divide.
  exists 268435456. reflexivity.
Qed.

Lemma R_period (C : Z) :
  Z.land (C + 16) 15 = Z.land C 15
  /\ Z.land ((16 - (C + 16)) mod 2 ^ 32) 15
     = Z.land ((16 - C) mod 2 ^ 32) 15.
Proof.
  split.
  - rewrite !land_15.
    replace (C + 16) with (C + 1 * 16) by lia. apply Z.mod_add. lia.
  - rewrite !R_little_endian_mod.
    replace (16 - C) with (16 - (C + 16) + 1 * 16) by lia.
    symmetry. apply Z.mod_add. lia.
Qed.

Lemma vsldoi_length (ra rb : uint8x16_p) (sh : Z) :
  is_vector ra -> is_vector rb -> 0 <= sh <= 16 ->
  is_vector (vsldoi ra rb sh).
Proof.
  intros Ha Hb Hs. unfold is_vector, vsldoi in *.
  rewrite length_firstn, length_skipn, length_app, Ha, Hb. lia.
Qed.

Lemma vec_sld_length (e : endianness) (a b : uint8x16_p) (sh : Z) :
  is_vector a -> is_vector b -> 0 <= sh <= 16 ->
  is_vector (vec_sld e a b sh).
Proof.
  intros Ha Hb Hs. unfold vec_sld, is_vector.
  rewrite be_view_length. apply vsldoi_length; try assumption;
    unfold is_vector; rewrite be_view_length; assumption.
Qed.

Lemma vec_xor_length (a b : uint8x16_p) :
  is_vector a -> is_vector b -> is_vector (vec_xor a b).
Proof.
  intros Ha Hb. unfold is_vector, vec_xor in *.
  rewrite length_map, length_combine, Ha, Hb. reflexivity.
Qed.

(** The one-vector shifts for a count in 1..15, on either host: the
    bytes from position [C] on, followed by [C] zero bytes. *)
Lemma one_vector_shift (e : endianness) (C : Z) (v : uint8x16_p) :
  is_vector v -> 1 <= C <= 15 ->
  VectorShiftLeft e C v = skipn (Z.to_nat C) v ++ repeat x00 (Z.to_nat C)
  /\ VectorShiftRight e C v = skipn (Z.to_nat C) v ++ repeat x00 (Z.to_nat C).
Proof.
  intros Hv HC. explode16 v Hv.
  unfold VectorShiftLeft, VectorShiftRight, VectorXor.
  rewrite vec_xor_self.
  count_cases C HC; destruct e; split; reflexivity.
Qed.

(** ** Shifts *)

(** X1.  For a count [C] in 1..15 and vectors [vec1], [vec2], byte [i] of
    the two-vector [VectorShiftLeft<C>(vec1, vec2)] is byte [i + C] of the
    concatenation [vec1 ++ vec2], on a big-endian and on a little-endian
    host alike; [VectorShiftRight<C>(vec1, vec2)] has the same bytes. *)
Theorem VectorShiftLeft2_bytes (e : endianness) (C : Z)
  (vec1 vec2 : uint8x16_p) (i : nat) :
  is_vector vec1 -> is_vector vec2 -> 1 <= C <= 15 -> (i < 16)%nat ->
  nth i (VectorShiftLeft2 e C vec1 vec2) x00
  = nth (i + Z.to_nat C) (vec1 ++ vec2) x00
  /\ nth i (VectorShiftRight2 e C vec1 vec2) x00
     = nth (i + Z.to_nat C) (vec1 ++ vec2) x00
  /\ VectorShiftLeft2 BigEndian C vec1 vec2
     = VectorShiftLeft2 LittleEndian C vec1 vec2.
Proof.
  intros H1 H2 HC Hi.
  assert (Hw : forall h, nth i (VectorShiftLeft2 h C vec1 vec2) x00
                         = nth (i + Z.to_nat C) (vec1 ++ vec2) x00).
  { intros h. rewrite VectorShiftLeft2_window by assumption.
    rewrite nth_firstn.
    replace (i <? 16)%nat with true by (symmetry; apply Nat.ltb_lt; exact Hi).
    rewrite nth_skipn. f_equal. lia. }
  split; [apply Hw|]. split.
  - change (VectorShiftRight2 e C vec1 vec2)
      with (VectorShiftLeft2 e C vec1 vec2). apply Hw.
  - rewrite !VectorShiftLeft2_window by assumption. reflexivity.
Qed.

Lemma VectorShiftLeft2_bytes_witness :
  let a := vec_lit [0;1;2;3;4;5;6;7;8;9;10;11;12;13;14;15] in
  let b := vec_lit [16;17;18;19;20;21;22;23;24;25;26;27;28;29;30;31] in
  nth 14 (VectorShiftLeft2 LittleEndian 3 a b) x00 = byte_of_Z 17.
Proof.
  intros a b.
  apply (VectorShiftLeft2_bytes LittleEndian 3 a b 14);
    [reflexivity | reflexivity | lia | lia].
Defined.

(** X2.  For a count [C] in 1..15 the one-vector [VectorShiftLeft<C>(v)]
    is, on either host, bytes [C..15] of [v] followed by [C] zero bytes:
    the first [C] bytes of [v] are dropped. *)
Theorem VectorShiftLeft_drops_leading_bytes (e : endianness) (C : Z)
  (v : uint8x16_p) :
  is_vector v -> 1 <= C <= 15 ->
  VectorShiftLeft e C v = skipn (Z.to_nat C) v ++ repeat x00 (Z.to_nat C).
Proof.
  intros Hv HC. apply (one_vector_shift e C v Hv HC).
Qed.

Lemma VectorShiftLeft_drops_leading_bytes_witness :
  VectorShiftLeft LittleEndian 12
    (vec_lit [1;2;3;4;5;6;7;8;9;10;11;12;13;14;15;16])
  = vec_lit [13;14;15;16;0;0;0;0;0;0;0;0;0;0;0;0].
Proof.
  apply (VectorShiftLeft_drops_leading_bytes LittleEndian 12
           (vec_lit [1;2;3;4;5;6;7;8;9;10;11;12;13;14;15;16]));
    [reflexivity | lia].
Defined.

(** X3.  The one-vector [VectorShiftRight<C>(v)] returns what
    [VectorShiftLeft<C>(v)] returns, for every count, vector and host; for
    [C] in 1..15 it therefore also drops the first [C] bytes of [v] and
    ends in [C] zero bytes, and the last [C] bytes of [v] are kept. *)
Theorem VectorShiftRight_shifts_left (e : endianness) (C : Z)
  (v : uint8x16_p) :
  is_vector v -> 1 <= C <= 15 ->
  (forall C' v', VectorShiftRight e C' v' = VectorShiftLeft e C' v')
  /\ VectorShiftRight e C v = skipn (Z.to_nat C) v ++ repeat x00 (Z.to_nat C)
  /\ nth (15 - Z.to_nat C) (VectorShiftRight e C v) x00 = nth 15 v x00.
Proof.
  intros Hv HC. split; [intros C' v'; destruct e; reflexivity|].
  destruct (one_vector_shift e C v Hv HC) as [_ HR].
  split; [exact HR|]. rewrite HR.
  rewrite app_nth1 by (rewrite length_skipn, Hv; lia).
  rewrite nth_skipn. f_equal. lia.
Qed.

Lemma VectorShiftRight_shifts_left_witness :
  VectorShiftRight BigEndian 12
    (vec_lit [1;2;3;4;5;6;7;8;9;10;11;12;13;14;15;16])
  = vec_lit [13;14;15;16;0;0;0;0;0;0;0;0;0;0;0;0].
Proof.
  apply (VectorShiftRight_shifts_left BigEndian 12
           (vec_lit [1;2;3;4;5;6;7;8;9;10;11;12;13;14;15;16]));
    [reflexivity | lia].
Defined.

(** X4.  Only the count modulo 16 matters: for every count [C], host and
    arguments, each of the four shift functions gives for [C + 16] what
    it gives for [C].  A count of 16 thus acts as a count of 0. *)
Theorem shift_count_is_taken_modulo_16 (e : endianness) (C : Z)
  (a b : uint8x16_p) :
  VectorShiftLeft2 e (C + 16) a b = VectorShiftLeft2 e C a b
  /\ VectorShiftRight2 e (C + 16) a b = VectorShiftRight2 e C a b
  /\ VectorShiftLeft e (C + 16) a = VectorShiftLeft e C a
  /\ VectorShiftRight e (C + 16) a = VectorShiftRight e C a.
Proof.
  destruct (R_period C) as [Hbe Hle].
  unfold VectorShiftLeft2, VectorShiftRight2, VectorShiftLeft,
    VectorShiftRight.
  destruct e; cbv zeta; rewrite ?Hbe, ?Hle; repeat split.
Qed.

(** X5.  One-vector left shifts compose by adding their counts while the
    sum stays below 16: for vectors [v] and counts [C1], [C2] >= 1 with
    [C1 + C2 <= 15], shifting by [C1] and then by [C2] is shifting by
    [C1 + C2], on either host. *)
Theorem VectorShiftLeft_composes (e : endianness) (C1 C2 : Z)
  (v : uint8x16_p) :
  is_vector v -> 1 <= C1 -> 1 <= C2 -> C1 + C2 <= 15 ->
  VectorShiftLeft e C2 (VectorShiftLeft e C1 v) = VectorShiftLeft e (C1 + C2) v.
Proof.
  intros Hv H1 H2 H12.
  destruct (one_vector_shift e C1 v Hv ltac:(lia)) as [E1 _].
  destruct (one_vector_shift e (C1 + C2) v Hv ltac:(lia)) as [E12 _].
  assert (Hs : is_vector (VectorShiftLeft e C1 v)).
  { rewrite E1. unfold is_vector.
    rewrite length_app, length_skipn, repeat_length, Hv. lia. }
  destruct (one_vector_shift e C2 _ Hs ltac:(lia)) as [E2 _].
  rewrite E2, E12, E1.
  rewrite skipn_app, skipn_skipn, length_skipn, Hv.
  replace (Z.to_nat C2 - (16 - Z.to_nat C1))%nat with 0%nat by lia.
  rewrite skipn_O, <- app_assoc, <- repeat_app.
  f_equal; f_equal; lia.
Qed.

Lemma VectorShiftLeft_composes_witness :
  let v := vec_lit [1;2;3;4;5;6;7;8;9;10;11;12;13;14;15;16] in
  VectorShiftLeft LittleEndian 5 (VectorShiftLeft LittleEndian 3 v)
  = VectorShiftLeft LittleEndian (3 + 5) v.
Proof.
  intros v.
  apply (VectorShiftLeft_composes LittleEndian 3 5 v);
    [reflexivity | lia | lia | lia].
Defined.

(** ** Bytewise operations *)

Lemma byte_to_Z_range (b : byte) : 0 <= byte_to_Z b < 256.
Proof.
  unfold byte_to_Z. pose proof (Byte.to_N_bounded b). lia.
Qed.

Lemma byte_of_to_Z (b : byte) : byte_of_Z (byte_to_Z b) = b.
Proof.
  unfold byte_of_Z. rewrite Z.mod_small by apply byte_to_Z_range.
  unfold byte_to_Z. rewrite N2Z.id, Byte.of_to_N. reflexivity.
Qed.

Lemma log2_byte (x : Z) : 0 <= x < 256 -> Z.log2 x < 8.
Proof.
  intros Hx. destruct (Z.eq_dec x 0) as [-> | Hnz]; [reflexivity|].
  apply Z.log2_lt_pow2; [lia|]. change (2 ^ 8) with 256. lia.
Qed.

Lemma byte_bound_of_log2 (x : Z) : 0 <= x -> Z.log2 x < 8 -> 0 <= x < 256.
Proof.
  intros Hx Hl. split; [exact Hx|].
  destruct (Z.eq_dec x 0) as [-> | Hnz]; [lia|].
  change 256 with (2 ^ 8). apply Z.log2_lt_pow2; lia.
Qed.

Lemma lxor_byte_range (x y : Z) :
  0 <= x < 256 -> 0 <= y < 256 -> 0 <= Z.lxor x y < 256.
Proof.
  intros Hx Hy. apply byte_bound_of_log2.
  - apply Z.lxor_nonneg. lia.
  - pose proof (Z.log2_lxor x y ltac:(lia) ltac:(lia)).
    pose proof (log2_byte x Hx). pose proof (log2_byte y Hy). lia.
Qed.

Lemma land_byte_range (x y : Z) :
  0 <= x < 256 -> 0 <= y < 256 -> 0 <= Z.land x y < 256.
Proof.
  intros Hx Hy. apply byte_bound_of_log2.
  - apply Z.land_nonneg. lia.
  - pose proof (Z.log2_land x y ltac:(lia) ltac:(lia)).
    pose proof (log2_byte x Hx). pose proof (log2_byte y Hy). lia.
Qed.

Lemma byte_to_Z_xor (a b : byte) :
  byte_to_Z (byte_xor a b) = Z.lxor (byte_to_Z a) (byte_to_Z b).
Proof.
  unfold byte_xor. apply byte_to_of_Z.
  apply lxor_byte_range; apply byte_to_Z_range.
Qed.

Lemma byte_to_Z_and (a b : byte) :
  byte_to_Z (byte_and a b) = Z.land (byte_to_Z a) (byte_to_Z b).
Proof.
  unfold byte_and. apply byte_to_of_Z.
  apply land_byte_range; apply byte_to_Z_range.
Qed.

Lemma byte_xor_comm (a b : byte) : byte_xor a b = byte_xor b a.
Proof. unfold byte_xor. rewrite Z.lxor_comm. reflexivity. Qed.

Lemma byte_xor_cancel (a b : byte) : byte_xor (byte_xor a b) b = a.
Proof.
  unfold byte_xor at 1. rewrite byte_to_Z_xor.
  rewrite Z.lxor_assoc, Z.lxor_nilpotent, Z.lxor_0_r.
  apply byte_of_to_Z.
Qed.

Lemma byte_xor_zero (a : byte) : byte_xor a x00 = a.
Proof.
  unfold byte_xor. change (byte_to_Z x00) with 0.
  rewrite Z.lxor_0_r. apply byte_of_to_Z.
Qed.

Lemma byte_and_comm (a b : byte) : byte_and a b = byte_and b a.
Proof. unfold byte_and. rewrite Z.land_comm. reflexivity. Qed.

Lemma byte_and_diag (a : byte) : byte_and a a = a.
Proof. unfold byte_and. rewrite Z.land_diag. apply byte_of_to_Z. Qed.

Lemma byte_and_zero (a : byte) : byte_and a x00 = x00.
Proof.
  unfold byte_and. change (byte_to_Z x00) with 0.
  rewrite Z.land_0_r. reflexivity.
Qed.

Lemma vec_xor_comm (a b : uint8x16_p) : vec_xor a b = vec_xor b a.
Proof.
  unfold vec_xor. revert b.
  induction a as [|x a IH]; intros [|y b]; simpl; try reflexivity.
  rewrite byte_xor_comm, IH. reflexivity.
Qed.

Lemma vec_and_comm (a b : uint8x16_p) : vec_and a b = vec_and b a.
Proof.
  unfold vec_and. revert b.
  induction a as [|x a IH]; intros [|y b]; simpl; try reflexivity.
  rewrite byte_and_comm, IH. reflexivity.
Qed.

(** X6.  [VectorXor] on 16-byte vectors: a vector XORed with itself is
    the zero vector (the way the one-vector shifts build their zero);
    XORing twice with the same vector gives the first operand back; the
    operation is commutative and the zero vector is neutral. *)
Theorem VectorXor_laws (a b : uint8x16_p) :
  is_vector a -> is_vector b ->
  VectorXor a a = repeat x00 16
  /\ VectorXor (VectorXor a b) b = a
  /\ VectorXor a b = VectorXor b a
  /\ VectorXor a (repeat x00 16) = a.
Proof.
  intros Ha Hb.
  split; [|split; [|split; [apply vec_xor_comm|]]];
    explode16 a Ha; explode16 b Hb;
    unfold VectorXor, vec_xor; cbn [combine map fst snd repeat];
    rewrite ?byte_xor_self, ?byte_xor_cancel, ?byte_xor_zero; reflexivity.
Qed.

Lemma VectorXor_laws_witness :
  let a := vec_lit [1;2;3;4;5;6;7;8;9;10;11;12;13;14;15;16] in
  let b := vec_lit [255;0;255;0;255;0;255;0;255;0;255;0;255;0;255;0] in
  VectorXor (VectorXor a b) b = a.
Proof.
  intros a b. apply (VectorXor_laws a b); reflexivity.
Defined.

(** X7.  [VectorAnd] on 16-byte vectors is idempotent and commutative,
    and ANDing with the zero vector gives the zero vector. *)
Theorem VectorAnd_laws (a b : uint8x16_p) :
  is_vector a -> is_vector b ->
  VectorAnd a a = a
  /\ VectorAnd a b = VectorAnd b a
  /\ VectorAnd a (VectorXor b b) = repeat x00 16.
Proof.
  intros Ha Hb.
  split; [|split; [apply vec_and_comm|]];
    explode16 a Ha; explode16 b Hb;
    unfold VectorAnd, VectorXor, vec_and, vec_xor;
    cbn [combine map fst snd repeat];
    rewrite ?byte_and_diag, ?byte_xor_self, ?byte_and_zero; reflexivity.
Qed.

Lemma VectorAnd_laws_witness :
  let a := vec_lit [1;2;3;4;5;6;7;8;9;10;11;12;13;14;15;16] in
  let b := vec_lit [255;0;255;0;255;0;255;0;255;0;255;0;255;0;255;0] in
  VectorAnd a b = VectorAnd b a.
Proof.
  intros a b. apply (VectorAnd_laws a b); reflexivity.
Defined.

(** ** Permute *)

(** With one source the index is taken modulo 16. *)
Lemma one_source_index (v : uint8x16_p) (k : byte) :
  is_vector v ->
  nth (Z.to_nat (Z.land (byte_to_Z k) 31)) (v ++ v) x00
  = nth (Z.to_nat (byte_to_Z k mod 16)) v x00.
Proof.
  intros Hv. pose proof (byte_to_Z_range k) as Hk.
  change 31 with (Z.ones 5). rewrite Z.land_ones by lia.
  change (2 ^ 5) with 32.
  pose proof (Z.mod_pos_bound (byte_to_Z k) 32 ltac:(lia)) as H32.
  assert (H16 : byte_to_Z k mod 16 = (byte_to_Z k mod 32) mod 16)
    by (symmetry; apply Z.mod_mod_divide; exists 2; reflexivity).
  rewrite H16.
  destruct (Z_lt_le_dec (byte_to_Z k mod 32) 16) as [Hlt | Hge].
  - rewrite app_nth1 by (rewrite Hv; lia).
    rewrite (Z.mod_small (byte_to_Z k mod 32)) by lia. reflexivity.
  - rewrite app_nth2 by (rewrite Hv; lia). rewrite Hv.
    assert (Hm : (byte_to_Z k mod 32) mod 16 = byte_to_Z k mod 32 - 16).
    { replace (byte_to_Z k mod 32)
        with (byte_to_Z k mod 32 - 16 + 1 * 16) at 1 by lia.
      rewrite Z.mod_add by lia. apply Z.mod_small. lia. }
    rewrite Hm. f_equal. lia.
Qed.

Lemma VectorPermute_map (v mask : uint8x16_p) :
  is_vector v ->
  VectorPermute v mask
  = map (fun k => nth (Z.to_nat (byte_to_Z k mod 16)) v x00) mask.
Proof.
  intros Hv. unfold VectorPermute, vec_perm.
  apply map_ext. intros k. apply one_source_index. exact Hv.
Qed.

(** X9.  One-source permutes compose: permuting [v] by [mask1] and the
    result by [mask2] is permuting [v] by the mask obtained by permuting
    [mask1] by [mask2]. *)
Theorem VectorPermute_composes (v mask1 mask2 : uint8x16_p) :
  is_vector v -> is_vector mask1 ->
  VectorPermute (VectorPermute v mask1) mask2
  = VectorPermute v (VectorPermute mask1 mask2).
Proof.
  intros Hv H1.
  assert (Hp : is_vector (VectorPermute v mask1))
    by (unfold is_vector, VectorPermute, vec_perm; rewrite length_map; exact H1).
  rewrite (VectorPermute_map v (VectorPermute mask1 mask2) Hv).
  rewrite (VectorPermute_map mask1 mask2 H1), map_map.
  rewrite (VectorPermute_map _ mask2 Hp).
  apply map_ext. intros k.
  pose proof (Z.mod_pos_bound (byte_to_Z k) 16 ltac:(lia)) as Hk.
  rewrite (VectorPermute_map v mask1 Hv).
  rewrite (nth_indep _ x00
             (nth (Z.to_nat (byte_to_Z x00 mod 16)) v x00))
    by (rewrite length_map, H1; lia).
  apply (map_nth (fun k0 => nth (Z.to_nat (byte_to_Z k0 mod 16)) v x00)).
Qed.

Lemma VectorPermute_composes_witness :
  let v := vec_lit [10;11;12;13;14;15;16;17;18;19;20;21;22;23;24;25] in
  let rot := vec_lit [1;2;3;4;5;6;7;8;9;10;11;12;13;14;15;0] in
  VectorPermute (VectorPermute v rot) reverse_mask
  = VectorPermute v (VectorPermute rot reverse_mask).
Proof.
  intros v rot.
  apply (VectorPermute_composes v rot reverse_mask); reflexivity.
Defined.

(** X10.  [Reverse] commutes with the bytewise operations: reversing
    the XOR (or the AND) of two vectors is XORing (ANDing) the reversed
    vectors. *)
Theorem Reverse_commutes_with_bytewise_ops (a b : uint8x16_p) :
  is_vector a -> is_vector b ->
  Reverse (VectorXor a b) = VectorXor (Reverse a) (Reverse b)
  /\ Reverse (VectorAnd a b) = VectorAnd (Reverse a) (Reverse b).
Proof.
  intros Ha Hb. explode16 a Ha. explode16 b Hb. split; reflexivity.
Qed.

Lemma Reverse_commutes_with_bytewise_ops_witness :
  let a := vec_lit [1;2;3;4;5;6;7;8;9;10;11;12;13;14;15;16] in
  let b := vec_lit [255;0;255;0;255;0;255;0;255;0;255;0;255;0;255;0] in
  Reverse (VectorXor a b) = VectorXor (Reverse a) (Reverse b).
Proof.
  intros a b.
  apply (Reverse_commutes_with_bytewise_ops a b); reflexivity.
Defined.

Lemma VectorPermute_selections_witness :
  let a := vec_lit [0;1;2;3;4;5;6;7;8;9;10;11;12;13;14;15] in
  let b := vec_lit [16;17;18;19;20;21;22;23;24;25;26;27;28;29;30;31] in
  VectorPermute2 a b
    (vec_lit [16;17;18;19;20;21;22;23;24;25;26;27;28;29;30;31]) = b.
Proof.
  intros a b. apply (VectorPermute_selections a b); reflexivity.
Defined.

(** ** POWER7 load and store, continued *)

Lemma load16_agree (m m' : mem) (a : addr) :
  (forall x, a <= x < a + 16 -> m x = m' x) -> load16 m a = load16 m' a.
Proof.
  intros H. unfold load16. apply map_ext_in.
  intros i Hi. apply H.
  unfold lanes in Hi. apply in_map_iff in Hi.
  destruct Hi as [n [<- Hn]]. apply in_seq in Hn. lia.
Qed.

Lemma be_view_vector (e : endianness) (v : uint8x16_p) :
  is_vector v -> is_vector (be_view e v).
Proof.
  intros Hv. unfold is_vector. rewrite be_view_length. exact Hv.
Qed.

(** X11.  On the POWER7 paths, for every compiler, host, address, offset
    and memory, a [VectorStore] of a vector followed by a [VectorLoad]
    from the same place returns that vector; the offset forms agree with
    each other and with the plain forms used at address [dest + off]. *)
Theorem Power7_native_round_trip (cfg : config) (v : uint8x16_p) (off : Z)
  (dest : addr) (m : mem) :
  is_vector v ->
  Power7.VectorLoad cfg (Power7.VectorStore cfg v dest m) dest = v
  /\ Power7.VectorLoad_off cfg (Power7.VectorStore_off cfg v off dest m)
       off dest = v
  /\ Power7.VectorLoad cfg (Power7.VectorStore_off cfg v off dest m)
       (dest + off) = v
  /\ Power7.VectorLoad_off cfg (Power7.VectorStore cfg v (dest + off) m)
       off dest = v.
Proof.
  intros Hv.
  unfold Power7.VectorLoad, Power7.VectorStore, Power7.VectorLoad_off,
    Power7.VectorStore_off, vec_xl, vec_xst, vec_vsx_ld, vec_vsx_st.
  rewrite !Z.add_0_r.
  destruct (xlc cfg); repeat split; apply load16_store16; exact Hv.
Qed.

Lemma Power7_native_round_trip_witness :
  let v := vec_lit [1;2;3;4;5;6;7;8;9;10;11;12;13;14;15;16] in
  let cfg := mkConfig LittleEndian false true in
  Power7.VectorLoad_off cfg (Power7.VectorStore_off cfg v 3 100 (fun _ => xff))
    3 100 = v.
Proof.
  intros v cfg.
  apply (Power7_native_round_trip cfg v 3 100 (fun _ => xff)). reflexivity.
Defined.

(** X12.  On the POWER7 paths, for every compiler and host, a
    [VectorStoreBE] of a vector followed by a [VectorLoadBE] from the same
    place returns that vector (plain and offset forms). *)
Theorem Power7_big_endian_round_trip (cfg : config) (v : uint8x16_p)
  (off : Z) (dest : addr) (m : mem) :
  is_vector v ->
  Power7.VectorLoadBE cfg (Power7.VectorStoreBE cfg v dest m) dest = v
  /\ Power7.VectorLoadBE_off cfg (Power7.VectorStoreBE_off cfg v off dest m)
       off dest = v.
Proof.
  intros Hv.
  unfold Power7.VectorLoadBE, Power7.VectorStoreBE, Power7.VectorLoadBE_off,
    Power7.VectorStoreBE_off, vec_xl_be, vec_xst_be, vec_vsx_ld, vec_vsx_st.
  destruct (xlc cfg).
  - rewrite !load16_store16 by (apply be_view_vector; exact Hv).
    rewrite be_view_involutive. split; reflexivity.
  - destruct (host cfg).
    + rewrite !load16_store16 by exact Hv. split; reflexivity.
    + rewrite !load16_store16 by apply Reverse_length.
      rewrite (Reverse_rev v Hv).
      rewrite Reverse_rev by (unfold is_vector; rewrite length_rev; exact Hv).
      rewrite rev_involutive. split; reflexivity.
Qed.

Lemma Power7_big_endian_round_trip_witness :
  let v := vec_lit [1;2;3;4;5;6;7;8;9;10;11;12;13;14;15;16] in
  let cfg := mkConfig LittleEndian true false in
  Power7.VectorLoadBE cfg (Power7.VectorStoreBE cfg v 7 (fun _ => xff)) 7 = v.
Proof.
  intros v cfg.
  apply (Power7_big_endian_round_trip cfg v 0 7 (fun _ => xff)). reflexivity.
Defined.

(** X13.  The XL C/C++ path and the GCC path of the POWER7 loads and
    stores compute the same thing on a given host: the loaded vectors are
    equal, and after a store of a vector every byte of memory is the same
    under either compiler. *)
Theorem Power7_compilers_agree (h : endianness) (g g' : bool)
  (v : uint8x16_p) (off : Z) (p : addr) (m : mem) (x : addr) :
  is_vector v ->
  let with_xlc := mkConfig h true g in
  let with_gcc := mkConfig h false g' in
  Power7.VectorLoad with_xlc m p = Power7.VectorLoad with_gcc m p
  /\ Power7.VectorLoad_off with_xlc m off p
     = Power7.VectorLoad_off with_gcc m off p
  /\ Power7.VectorLoadBE with_xlc m p = Power7.VectorLoadBE with_gcc m p
  /\ Power7.VectorLoadBE_off with_xlc m off p
     = Power7.VectorLoadBE_off with_gcc m off p
  /\ Power7.VectorStore with_xlc v p m x = Power7.VectorStore with_gcc v p m x
  /\ Power7.VectorStore_off with_xlc v off p m x
     = Power7.VectorStore_off with_gcc v off p m x
  /\ Power7.VectorStoreBE with_xlc v p m x
     = Power7.VectorStoreBE with_gcc v p m x
  /\ Power7.VectorStoreBE_off with_xlc v off p m x
     = Power7.VectorStoreBE_off with_gcc v off p m x.
Proof.
  intros Hv with_xlc with_gcc.
  unfold Power7.VectorLoad, Power7.VectorLoad_off, Power7.VectorLoadBE,
    Power7.VectorLoadBE_off, Power7.VectorStore, Power7.VectorStore_off,
    Power7.VectorStoreBE, Power7.VectorStoreBE_off,
    vec_xl, vec_xst, vec_xl_be, vec_xst_be, vec_vsx_ld, vec_vsx_st.
  cbn [xlc host with_xlc with_gcc].
  destruct h; cbn [be_view];
    rewrite ?Reverse_rev by (assumption || apply load16_length);
    repeat split.
Qed.

Lemma Power7_compilers_agree_witness :
  let v := vec_lit [1;2;3;4;5;6;7;8;9;10;11;12;13;14;15;16] in
  Power7.VectorStoreBE (mkConfig LittleEndian true false) v 7 (fun _ => xff) 9
  = Power7.VectorStoreBE (mkConfig LittleEndian false true) v 7 (fun _ => xff) 9.
Proof.
  intros v.
  apply (Power7_compilers_agree LittleEndian false true v 0 7 (fun _ => xff) 9).
  reflexivity.
Defined.

(** X14.  The big-endian forms fix the memory format whatever the host or
    compiler: after [VectorStoreBE] of a vector the 16 bytes at [dest] are
    the big-endian view of the vector (the vector itself on a big-endian
    host, the byte-reversed vector on a little-endian one), and
    [VectorLoadBE] returns the big-endian view of the 16 bytes at [src].
    On a big-endian host the big-endian forms are the native forms. *)
Theorem Power7_big_endian_memory_format (cfg : config) (v : uint8x16_p)
  (src dest : addr) (m : mem) (x : addr) :
  is_vector v ->
  load16 (Power7.VectorStoreBE cfg v dest m) dest = be_view (host cfg) v
  /\ Power7.VectorLoadBE cfg m src = be_view (host cfg) (load16 m src)
  /\ (forall g1 g2,
        let be := mkConfig BigEndian g1 g2 in
        Power7.VectorLoadBE be m src = Power7.VectorLoad be m src
        /\ Power7.VectorStoreBE be v dest m x = Power7.VectorStore be v dest m x).
Proof.
  intros Hv.
  unfold Power7.VectorLoadBE, Power7.VectorStoreBE, Power7.VectorLoad,
    Power7.VectorStore, vec_xl_be, vec_xst_be, vec_xl, vec_xst, vec_vsx_ld,
    vec_vsx_st.
  rewrite !Z.add_0_r.
  split; [|split].
  - destruct (xlc cfg).
    + apply load16_store16, be_view_vector, Hv.
    + destruct (host cfg); cbn [be_view].
      * apply load16_store16, Hv.
      * rewrite load16_store16 by apply Reverse_length.
        apply Reverse_rev, Hv.
  - destruct (xlc cfg); [reflexivity|].
    destruct (host cfg); cbn [be_view]; [reflexivity|].
    apply Reverse_rev, load16_length.
  - intros g1 g2. cbv zeta. cbn [xlc host be_view].
    destruct g1; split; reflexivity.
Qed.

Lemma Power7_big_endian_memory_format_witness :
  let v := vec_lit [1;2;3;4;5;6;7;8;9;10;11;12;13;14;15;16] in
  let cfg := mkConfig LittleEndian false true in
  load16 (Power7.VectorStoreBE cfg v 7 (fun _ => xff)) 7
  = vec_lit [16;15;14;13;12;11;10;9;8;7;6;5;4;3;2;1].
Proof.
  intros v cfg.
  apply (Power7_big_endian_memory_format cfg v 0 7 (fun _ => xff) 0).
  reflexivity.
Defined.

(** X15.  The POWER7 stores write the 16 bytes at [dest + off] and nothing
    else: every byte outside that window is unchanged, for all four store
    forms, and a load from a window that does not overlap it returns what
    it returned before the store. *)
Theorem Power7_store_frame (cfg : config) (v : uint8x16_p) (off : Z)
  (dest src : addr) (m : mem) (x : addr) :
  x < dest + off \/ dest + off + 16 <= x ->
  src + 16 <= dest + off \/ dest + off + 16 <= src ->
  Power7.VectorStore_off cfg v off dest m x = m x
  /\ Power7.VectorStoreBE_off cfg v off dest m x = m x
  /\ Power7.VectorStore cfg v (dest + off) m x = m x
  /\ Power7.VectorStoreBE cfg v (dest + off) m x = m x
  /\ Power7.VectorLoad cfg (Power7.VectorStore_off cfg v off dest m) src
     = Power7.VectorLoad cfg m src
  /\ Power7.VectorLoadBE cfg (Power7.VectorStoreBE_off cfg v off dest m) src
     = Power7.VectorLoadBE cfg m src.
Proof.
  intros Hx Hs.
  assert (Hst : forall w y, y < dest + off \/ dest + off + 16 <= y ->
                            store16 m (dest + off) w y = m y)
    by (intros w y Hy; apply store16_outside; exact Hy).
  assert (Hld : forall w, load16 (store16 m (dest + off) w) (src + 0)
                          = load16 m (src + 0)).
  { intros w. apply load16_agree. intros y Hy. apply Hst. lia. }
  unfold Power7.VectorStore_off, Power7.VectorStoreBE_off, Power7.VectorStore,
    Power7.VectorStoreBE, Power7.VectorLoad, Power7.VectorLoadBE,
    vec_xst, vec_xst_be, vec_vsx_st, vec_xl, vec_xl_be, vec_vsx_ld.
  rewrite !Z.add_0_r in *.
  destruct (xlc cfg); [|destruct (host cfg)];
    rewrite ?Hld, ?Hst by exact Hx; repeat split.
Qed.

Lemma Power7_store_frame_witness :
  let v := vec_lit [1;2;3;4;5;6;7;8;9;10;11;12;13;14;15;16] in
  let cfg := mkConfig BigEndian false true in
  Power7.VectorStore_off cfg v 4 100 (fun _ => xff) 103 = xff.
Proof.
  intros v cfg.
  apply (Power7_store_frame cfg v 4 100 0 (fun _ => xff) 103); lia.
Defined.

(** X16.  Each POWER7 offset overload is the plain function used at
    address [p + off]. *)
Theorem Power7_offset_forms (cfg : config) (v : uint8x16_p) (off : Z)
  (p : addr) (m : mem) :
  Power7.VectorLoad_off cfg m off p = Power7.VectorLoad cfg m (p + off)
  /\ Power7.VectorLoadBE_off cfg m off p = Power7.VectorLoadBE cfg m (p + off)
  /\ Power7.VectorStore_off cfg v off p m = Power7.VectorStore cfg v (p + off) m
  /\ Power7.VectorStoreBE_off cfg v off p m
     = Power7.VectorStoreBE cfg v (p + off) m.
Proof.
  unfold Power7.VectorLoad_off, Power7.VectorLoad, Power7.VectorLoadBE_off,
    Power7.VectorLoadBE, Power7.VectorStore_off, Power7.VectorStore,
    Power7.VectorStoreBE_off, Power7.VectorStoreBE,
    vec_xl, vec_xst, vec_xl_be, vec_xst_be, vec_vsx_ld, vec_vsx_st.
  rewrite !Z.add_0_r. repeat split.
Qed.

(** ** Altivec load and store, continued *)

Lemma Altivec_VectorStore_outside (e : endianness) (data : uint32x4_p)
  (dest : addr) (m : mem) (x : addr) :
  x < dest \/ dest + 16 <= x ->
  Altivec.VectorStore e data dest m x = m x.
Proof.
  intros Hx. unfold Altivec.VectorStore.
  destruct (Altivec.IsAlignedOn dest 16) eqn:E.
  - unfold vec_st. rewrite align_down_aligned by exact E.
    apply store16_outside. exact Hx.
  - apply (run_element_stores_frame _ dest Altivec.element_stores x
             element_stores_in_window Hx m).
Qed.

Lemma Altivec_VectorStore_as_store16 (e : endianness) (data : uint32x4_p)
  (dest : addr) (m : mem) (x : addr) :
  is_vector data ->
  Altivec.VectorStore e data dest m x = store16 m dest (be_view e data) x.
Proof.
  intros Hv.
  destruct (Z_lt_le_dec x dest) as [Hlo | Hlo];
    [|destruct (Z_lt_le_dec x (dest + 16)) as [Hhi | Hhi]].
  - rewrite Altivec_VectorStore_outside, store16_outside by lia. reflexivity.
  - replace x with (dest + (x - dest)) by lia.
    rewrite Altivec_VectorStore_byte, store16_inside by (assumption || lia).
    reflexivity.
  - rewrite Altivec_VectorStore_outside, store16_outside by lia. reflexivity.
Qed.

(** X17.  Whatever the alignment of [dest], the Altivec [VectorStore] of a
    vector changes memory exactly as one 16-byte store at [dest] would:
    on a big-endian host it writes the vector, on a little-endian host the
    byte-reversed vector.  The eight [vec_ste] element stores of the
    unaligned branch by themselves have that effect at every address, so
    the aligned [vec_st] branch is a shortcut, not a different result. *)
Theorem Altivec_VectorStore_is_a_16_byte_store (e : endianness)
  (data : uint32x4_p) (dest : addr) (m : mem) (x : addr) :
  is_vector data ->
  Altivec.VectorStore e data dest m x
  = store16 m dest
      (match e with BigEndian => data | LittleEndian => rev data end) x
  /\ Altivec.run_element_stores
       (vec_perm data data (vec_lvsr 0 dest)) dest Altivec.element_stores m x
     = store16 m dest data x.
Proof.
  intros Hv. split.
  - rewrite Altivec_VectorStore_as_store16 by exact Hv.
    destruct e; reflexivity.
  - destruct (Z_lt_le_dec x dest) as [Hlo | Hlo];
      [|destruct (Z_lt_le_dec x (dest + 16)) as [Hhi | Hhi]].
    + rewrite store16_outside by lia.
      apply run_element_stores_frame;
        [apply element_stores_in_window | lia].
    + replace x with (dest + (x - dest)) by lia.
      rewrite run_element_stores_byte, store16_inside by (assumption || lia).
      reflexivity.
    + rewrite store16_outside by lia.
      apply run_element_stores_frame;
        [apply element_stores_in_window | lia].
Qed.

Lemma Altivec_VectorStore_is_a_16_byte_store_witness :
  let v := vec_lit [1;2;3;4;5;6;7;8;9;10;11;12;13;14;15;16] in
  Altivec.VectorStore BigEndian v 5 (fun _ => xff) 20
  = store16 (fun _ => xff) 5 v 20.
Proof.
  intros v.
  apply (Altivec_VectorStore_is_a_16_byte_store BigEndian v 5 (fun _ => xff) 20).
  reflexivity.
Defined.

(** X18.  The Altivec [VectorStoreBE] writes the vector in native element
    order on both hosts: on a little-endian host its byte reversal and the
    one inside the Altivec [VectorStore] cancel, so memory gets the
    vector, not the byte-reversed vector. *)
Theorem Altivec_VectorStoreBE_writes_native_order (e : endianness)
  (src : uint8x16_p) (dest : addr) (m : mem) (x : addr) :
  is_vector src ->
  Altivec.VectorStoreBE e src dest m x = store16 m dest src x.
Proof.
  intros Hv. unfold Altivec.VectorStoreBE. destruct e.
  - apply (Altivec_VectorStore_as_store16 BigEndian src dest m x Hv).
  - change (vec_perm src src
              (vec_lit [15;14;13;12; 11;10;9;8; 7;6;5;4; 3;2;1;0]))
      with (Reverse src).
    rewrite Altivec_VectorStore_as_store16 by apply Reverse_length.
    unfold be_view. rewrite Reverse_rev by exact Hv.
    rewrite rev_involutive. reflexivity.
Qed.

Lemma Altivec_VectorStoreBE_writes_native_order_witness :
  let v := vec_lit [1;2;3;4;5;6;7;8;9;10;11;12;13;14;15;16] in
  Altivec.VectorStoreBE LittleEndian v 5 (fun _ => xff) 5 = byte_of_Z 1.
Proof.
  intros v.
  apply (Altivec_VectorStoreBE_writes_native_order LittleEndian v 5
           (fun _ => xff) 5).
  reflexivity.
Defined.

(** X19.  Altivec stores against POWER7 stores.  On a big-endian host the
    Altivec [VectorStore] and [VectorStoreBE] leave memory as the POWER7
    functions of the same name do.  On a little-endian host the roles are
    exchanged: the Altivec [VectorStore] leaves what the POWER7
    [VectorStoreBE] leaves, and the Altivec [VectorStoreBE] what the
    POWER7 [VectorStore] leaves. *)
Theorem Altivec_stores_against_Power7_stores (c g : bool) (v : uint8x16_p)
  (dest : addr) (m : mem) (x : addr) :
  is_vector v ->
  let be := mkConfig BigEndian c g in
  let le := mkConfig LittleEndian c g in
  Altivec.VectorStore BigEndian v dest m x = Power7.VectorStore be v dest m x
  /\ Altivec.VectorStoreBE BigEndian v dest m x
     = Power7.VectorStoreBE be v dest m x
  /\ Altivec.VectorStore LittleEndian v dest m x
     = Power7.VectorStoreBE le v dest m x
  /\ Altivec.VectorStoreBE LittleEndian v dest m x
     = Power7.VectorStore le v dest m x.
Proof.
  intros Hv be le.
  rewrite !Altivec_VectorStore_as_store16 by exact Hv.
  assert (HBE : forall e, Altivec.VectorStoreBE e v dest m x
                          = store16 m dest v x).
  { intros e. unfold Altivec.VectorStoreBE. destruct e.
    - apply (Altivec_VectorStore_as_store16 BigEndian v dest m x Hv).
    - change (vec_perm v v
                (vec_lit [15;14;13;12; 11;10;9;8; 7;6;5;4; 3;2;1;0]))
        with (Reverse v).
      rewrite Altivec_VectorStore_as_store16 by apply Reverse_length.
      unfold be_view. rewrite Reverse_rev by exact Hv.
      rewrite rev_involutive. reflexivity. }
  rewrite !HBE.
  unfold Power7.VectorStore, Power7.VectorStoreBE, vec_xst, vec_xst_be,
    vec_vsx_st.
  subst be le. cbn [xlc host be_view]. rewrite !Z.add_0_r.
  rewrite (Reverse_rev v Hv).
  destruct c; repeat split.
Qed.

Lemma Altivec_stores_against_Power7_stores_witness :
  let v := vec_lit [1;2;3;4;5;6;7;8;9;10;11;12;13;14;15;16] in
  Altivec.VectorStore LittleEndian v 5 (fun _ => xff) 6
  = Power7.VectorStoreBE (mkConfig LittleEndian false true) v 5
      (fun _ => xff) 6.
Proof.
  intros v.
  apply (Altivec_stores_against_Power7_stores false true v 5 (fun _ => xff) 6).
  reflexivity.
Defined.

(** X20.  The Altivec [VectorLoadBE] calls the Altivec [VectorLoad], which
    ends without a return statement; so on either host, for every memory
    and address, [VectorLoadBE] returns no value either, and it never
    fires an assertion. *)
Theorem Altivec_VectorLoadBE_does_not_return (e : endianness) (m : mem)
  (src : addr) :
  Altivec.VectorLoadBE e m src = NoReturn
  /\ (forall r, Altivec.VectorLoadBE e m src <> Returned r)
  /\ assertion_fired (Altivec.VectorLoadBE e m src) = false.
Proof.
  destruct e; repeat split; intros r; discriminate.
Qed.

(** ** VectorAdd *)

Lemma lane_value_app (l : list byte) (b : byte) :
  lane_value (l ++ [b]) = lane_value l * 256 + byte_to_Z b.
Proof.
  unfold lane_value. rewrite fold_left_app. reflexivity.
Qed.

Lemma lane_value_range (l : list byte) :
  0 <= lane_value l < 256 ^ Z.of_nat (length l).
Proof.
  induction l as [|b l IH] using rev_ind.
  - change (lane_value []) with 0. change (256 ^ Z.of_nat (length [])) with 1.
    lia.
  - rewrite lane_value_app, length_app, Nat.add_1_r, Nat2Z.inj_succ,
      Z.pow_succ_r by lia.
    pose proof (byte_to_Z_range b). lia.
Qed.

Lemma byte_of_Z_mod (z : Z) : byte_of_Z (z mod 256) = byte_of_Z z.
Proof.
  unfold byte_of_Z. rewrite Z.mod_mod by lia. reflexivity.
Qed.

(** The bytes of the value of a lane are the lane. *)
Lemma lane_of_lane_value (l : list byte) :
  lane_of_value (length l) (lane_value l) = l.
Proof.
  induction l as [|b l IH] using rev_ind; [reflexivity|].
  rewrite lane_value_app, length_app, Nat.add_1_r.
  unfold lane_of_value in *.
  rewrite seq_S, map_app. cbn [map Nat.add].
  f_equal.
  - etransitivity; [|exact IH]. apply map_ext_in. intros i Hi.
    apply in_seq in Hi.
    replace (S (length l) - 1 - i)%nat with (S (length l - 1 - i)) by lia.
    rewrite Nat2Z.inj_succ, Z.pow_succ_r by lia.
    rewrite <- Z.div_div by (try apply Z.pow_pos_nonneg; lia).
    rewrite Z.div_add_l by lia.
    rewrite (Z.div_small (byte_to_Z b)) by apply byte_to_Z_range.
    rewrite Z.add_0_r. reflexivity.
  - replace (S (length l) - 1 - length l)%nat with 0%nat by lia.
    change (256 ^ Z.of_nat 0) with 1. rewrite Z.div_1_r.
    rewrite <- byte_of_Z_mod, Z.add_comm, Z.mod_add by lia.
    rewrite byte_of_Z_mod. f_equal. apply byte_of_to_Z.
Qed.

Lemma lane_add_zero (w : nat) (l z : list byte) :
  length l = w -> lane_value z = 0 ->
  lane_of_value w ((lane_value l + lane_value z) mod 256 ^ Z.of_nat w) = l.
Proof.
  intros Hl Hz. subst w. rewrite Hz, Z.add_0_r.
  rewrite Z.mod_small by apply lane_value_range.
  apply lane_of_lane_value.
Qed.

Lemma byte_lane_add (x y : byte) :
  lane_of_value 1 ((lane_value [x] + lane_value [y]) mod 256 ^ Z.of_nat 1)
  = [byte_of_Z (byte_to_Z x + byte_to_Z y)].
Proof.
  unfold lane_of_value, lane_value. cbn [seq map fold_left Nat.sub].
  change (256 ^ Z.of_nat 1) with 256. change (256 ^ Z.of_nat 0) with 1.
  rewrite Z.div_1_r, byte_of_Z_mod. rewrite !Z.mul_0_l, !Z.add_0_l.
  reflexivity.
Qed.

Lemma vadd_comm (w : nat) (ra rb : uint8x16_p) : vadd w ra rb = vadd w rb ra.
Proof.
  unfold vadd. f_equal. apply map_ext. intros k.
  rewrite Z.add_comm. reflexivity.
Qed.

Ltac show_lanes :=
  unfold vadd, lane_bytes, lane;
  cbn [Nat.div Nat.divmod fst snd seq map Nat.mul Nat.add skipn firstn
       repeat be_view rev app concat].

(** X21.  [VectorAdd] is commutative for every lane width and host, and
    adding the zero vector to a vector gives the vector back. *)
Theorem VectorAdd_laws (e : endianness) (T1 : lane_type)
  (vec1 vec2 : uint8x16_p) :
  is_vector vec1 ->
  VectorAdd e T1 vec1 vec2 = VectorAdd e T1 vec2 vec1
  /\ VectorAdd e T1 vec1 (repeat x00 16) = vec1
  /\ VectorAdd e T1 (VectorXor vec1 vec1) vec1 = vec1.
Proof.
  intros Hv.
  assert (Hz : VectorAdd e T1 vec1 (repeat x00 16) = vec1).
  { explode16 vec1 Hv. unfold VectorAdd, vec_add.
    destruct e, T1; show_lanes;
      rewrite !lane_add_zero by reflexivity; reflexivity. }
  split; [|split].
  - unfold VectorAdd, vec_add. rewrite vadd_comm. reflexivity.
  - exact Hz.
  - unfold VectorXor. rewrite vec_xor_self.
    replace (map (fun _ => x00) vec1) with (repeat x00 16)
      by (explode16 vec1 Hv; reflexivity).
    unfold VectorAdd, vec_add in *. rewrite vadd_comm. exact Hz.
Qed.

Lemma VectorAdd_laws_witness :
  let v := vec_lit [1;2;3;4;5;6;7;8;9;10;11;12;13;14;15;255] in
  VectorAdd LittleEndian U32x4 v (repeat x00 16) = v.
Proof.
  intros v. apply (VectorAdd_laws LittleEndian U32x4 v v). reflexivity.
Defined.

(** X22.  With 8-bit lanes [VectorAdd] adds byte by byte modulo 256, the
    same on both hosts: byte [i] of the result depends on byte [i] of the
    operands only, and no carry passes from one byte to the next. *)
Theorem VectorAdd_bytes (e : endianness) (vec1 vec2 : uint8x16_p) :
  is_vector vec1 -> is_vector vec2 ->
  VectorAdd e U8x16 vec1 vec2
  = map (fun p => byte_of_Z (byte_to_Z (fst p) + byte_to_Z (snd p)))
      (combine vec1 vec2).
Proof.
  intros H1 H2. explode16 vec1 H1. explode16 vec2 H2.
  unfold VectorAdd, vec_add.
  destruct e; show_lanes; rewrite !byte_lane_add; reflexivity.
Qed.

Lemma VectorAdd_bytes_witness :
  VectorAdd LittleEndian U8x16
    (vec_lit [255;255;2;3;4;5;6;7;8;9;10;11;12;13;14;255])
    (vec_lit [1;0;0;0;0;0;0;0;0;0;0;0;0;0;0;1])
  = vec_lit [0;255;2;3;4;5;6;7;8;9;10;11;12;13;14;0].
Proof.
  apply (VectorAdd_bytes LittleEndian
           (vec_lit [255;255;2;3;4;5;6;7;8;9;10;11;12;13;14;255])
           (vec_lit [1;0;0;0;0;0;0;0;0;0;0;0;0;0;0;1])); reflexivity.
Defined.

(** ** Feature macros *)

(** X23.  Lines 27-40 only clear feature macros, never define one, and
    leave the architecture macros alone: afterwards
    [CRYPTOPP_ALTIVEC_AVAILABLE] is defined exactly when it was defined
    and [__ALTIVEC__] is; [CRYPTOPP_POWER7_AVAILABLE] exactly when it was
    and [_ARCH_PWR7] is; each of the four [CRYPTOPP_POWER8_*] macros
    exactly when it was and one of [_ARCH_PWR8], [_ARCH_PWR9], [__CRYPTO],
    [__CRYPTO__] is.  Running the lines again changes nothing. *)
Theorem feature_macros_only_downgrade (k : macros) :
  let f := feature_macros k in
  let crypto_arch := _ARCH_PWR8 k || _ARCH_PWR9 k || __CRYPTO k || __CRYPTO__ k in
  CRYPTOPP_ALTIVEC_AVAILABLE f = CRYPTOPP_ALTIVEC_AVAILABLE k && __ALTIVEC__ k
  /\ CRYPTOPP_POWER7_AVAILABLE f = CRYPTOPP_POWER7_AVAILABLE k && _ARCH_PWR7 k
  /\ CRYPTOPP_POWER8_AVAILABLE f = CRYPTOPP_POWER8_AVAILABLE k && crypto_arch
  /\ CRYPTOPP_POWER8_AES_AVAILABLE f
     = CRYPTOPP_POWER8_AES_AVAILABLE k && crypto_arch
  /\ CRYPTOPP_POWER8_VMULL_AVAILABLE f
     = CRYPTOPP_POWER8_VMULL_AVAILABLE k && crypto_arch
  /\ CRYPTOPP_POWER8_SHA_AVAILABLE f
     = CRYPTOPP_POWER8_SHA_AVAILABLE k && crypto_arch
  /\ (__ALTIVEC__ f, _ARCH_PWR7 f, _ARCH_PWR8 f, _ARCH_PWR9 f, __CRYPTO f,
      __CRYPTO__ f, CRYPTOPP_DOXYGEN_PROCESSING f)
     = (__ALTIVEC__ k, _ARCH_PWR7 k, _ARCH_PWR8 k, _ARCH_PWR9 k, __CRYPTO k,
        __CRYPTO__ k, CRYPTOPP_DOXYGEN_PROCESSING k)
  /\ feature_macros f = f.
Proof.
  destruct k as [a p7 p8 aes vmull sha alt a7 a8 a9 c1 c2 dox].
  destruct alt, a7, a8, a9, c1, c2;
    cbv [feature_macros undef_power8 undef_power7 undef_altivec negb orb
         CRYPTOPP_ALTIVEC_AVAILABLE CRYPTOPP_POWER7_AVAILABLE
         CRYPTOPP_POWER8_AVAILABLE CRYPTOPP_POWER8_AES_AVAILABLE
         CRYPTOPP_POWER8_VMULL_AVAILABLE CRYPTOPP_POWER8_SHA_AVAILABLE
         __ALTIVEC__ _ARCH_PWR7 _ARCH_PWR8 _ARCH_PWR9 __CRYPTO __CRYPTO__
         CRYPTOPP_DOXYGEN_PROCESSING];
    rewrite ?andb_true_r, ?andb_false_r; repeat split.
Qed.

(** X24.  Which blocks of the header a translation unit compiles, in
    terms of the macros it is given.  The POWER7 load/store block is
    compiled when documentation is being generated or
    [CRYPTOPP_POWER7_AVAILABLE] and [_ARCH_PWR7] are both defined, and the
    Altivec load/store block exactly when the POWER7 one is not.  The
    crypto block needs [CRYPTOPP_POWER8_AVAILABLE] and one of the four
    crypto architecture macros; [uint64x2_p] is declared only when both
    the Altivec types and the crypto block are.  The three tiers are
    tested independently: one of the two load/store blocks is compiled
    in every configuration, also when the vector types are not declared,
    and the crypto block does not depend on the Altivec macros. *)
Theorem compiled_blocks (k : macros) :
  let dox := CRYPTOPP_DOXYGEN_PROCESSING k in
  compiled k Power7LoadStore
  = dox || (CRYPTOPP_POWER7_AVAILABLE k && _ARCH_PWR7 k)
  /\ compiled k AltivecLoadStore = negb (compiled k Power7LoadStore)
  /\ compiled k AltivecOps
     = dox || (CRYPTOPP_ALTIVEC_AVAILABLE k && __ALTIVEC__ k)
  /\ compiled k AltivecTypes = compiled k AltivecOps
  /\ compiled k Power8Crypto
     = dox || (CRYPTOPP_POWER8_AVAILABLE k
               && (_ARCH_PWR8 k || _ARCH_PWR9 k || __CRYPTO k || __CRYPTO__ k))
  /\ compiled k Uint64x2Type
     = compiled k AltivecTypes && compiled k Power8Crypto
  /\ compiled k Power7LoadStore || compiled k AltivecLoadStore = true.
Proof.
  destruct k as [a p7 p8 aes vmull sha alt a7 a8 a9 c1 c2 dox].
  destruct alt, a7, a8, a9, c1, c2, dox, a, p7, p8;
    vm_compute; repeat split.
Qed.

(** ** The load and store a translation unit gets *)

(** X25.  In a translation unit compiled without [_ARCH_PWR7] (and not for
    documentation) the name [VectorLoad] is the Altivec function, whether
    or not the build had set [CRYPTOPP_POWER7_AVAILABLE]: a [VectorLoad]
    after a [VectorStore] to the same place returns no value, although
    the store has put the vector (byte-reversed on a little-endian host)
    in memory at [dest]. *)
Theorem unit_without_ARCH_PWR7 (k : macros) (cfg : config) (v : uint8x16_p)
  (dest : addr) (m : mem) :
  _ARCH_PWR7 k = false -> CRYPTOPP_DOXYGEN_PROCESSING k = false ->
  is_vector v ->
  VectorLoad_in_unit k cfg (VectorStore_in_unit k cfg v dest m) dest = NoReturn
  /\ load16 (VectorStore_in_unit k cfg v dest m) dest = be_view (host cfg) v.
Proof.
  intros H7 Hd Hv.
  assert (Hc : compiled k Power7LoadStore = false).
  { destruct k as [a p7 p8 aes vmull sha alt a7 a8 a9 c1 c2 dox].
    cbn [_ARCH_PWR7 CRYPTOPP_DOXYGEN_PROCESSING] in H7, Hd. subst a7 dox.
    destruct alt, a8, a9, c1, c2; reflexivity. }
  unfold VectorLoad_in_unit, VectorStore_in_unit. rewrite Hc.
  split; [reflexivity|].
  apply Altivec_VectorStore_image. exact Hv.
Qed.

Lemma unit_without_ARCH_PWR7_witness :
  let k := mkMacros true true false false false false
             true false false false false false false in
  let v := vec_lit [1;2;3;4;5;6;7;8;9;10;11;12;13;14;15;16] in
  VectorLoad_in_unit k (mkConfig BigEndian false true)
    (VectorStore_in_unit k (mkConfig BigEndian false true) v 5 (fun _ => x00)) 5
  = NoReturn.
Proof.
  intros k v.
  apply (unit_without_ARCH_PWR7 k (mkConfig BigEndian false true) v 5
           (fun _ => x00)); reflexivity.
Defined.

(** X26.  In a translation unit with [CRYPTOPP_POWER7_AVAILABLE] set and
    [_ARCH_PWR7] defined the names are the POWER7 functions: [VectorLoad]
    returns the 16 bytes at its address, and a [VectorLoad] after a
    [VectorStore] of a vector to the same place returns that vector, for
    every compiler and host. *)
Theorem unit_with_ARCH_PWR7 (k : macros) (cfg : config) (v : uint8x16_p)
  (src dest : addr) (m : mem) :
  CRYPTOPP_POWER7_AVAILABLE k = true -> _ARCH_PWR7 k = true ->
  is_vector v ->
  VectorLoad_in_unit k cfg m src = Returned (load16 m src)
  /\ VectorLoad_in_unit k cfg (VectorStore_in_unit k cfg v dest m) dest
     = Returned v.
Proof.
  intros Hp H7 Hv.
  assert (Hc : compiled k Power7LoadStore = true).
  { destruct k as [a p7 p8 aes vmull sha alt a7 a8 a9 c1 c2 dox].
    cbn [_ARCH_PWR7 CRYPTOPP_POWER7_AVAILABLE] in H7, Hp. subst a7 p7.
    destruct alt, a8, a9, c1, c2; reflexivity. }
  unfold VectorLoad_in_unit, VectorStore_in_unit. rewrite Hc.
  unfold Power7.VectorLoad, Power7.VectorStore, vec_xl, vec_xst, vec_vsx_ld,
    vec_vsx_st.
  rewrite !Z.add_0_r.
  destruct (xlc cfg); rewrite load16_store16 by exact Hv; split; reflexivity.
Qed.

Lemma unit_with_ARCH_PWR7_witness :
  let k := mkMacros true true false false false false
             true true false false false false false in
  let v := vec_lit [1;2;3;4;5;6;7;8;9;10;11;12;13;14;15;16] in
  VectorLoad_in_unit k (mkConfig BigEndian false true)
    (VectorStore_in_unit k (mkConfig BigEndian false true) v 5 (fun _ => x00)) 5
  = Returned v.
Proof.
  intros k v.
  apply (unit_with_ARCH_PWR7 k (mkConfig BigEndian false true) v 5 5
           (fun _ => x00)); reflexivity.
Defined.

(** ** Shift round trips that hold *)

(** X27.  The two-vector left shift is undone by the two-vector left shift
    by the complementary count: with [shifted] the vector moved left by
    [C] bytes and [dropped] the [C] bytes that left it, shifting the pair
    [dropped], [shifted] left by [16 - C] gives the vector back, for every
    [C] in 1..15 on either host. *)
Theorem VectorShiftLeft2_complementary_round_trip (e : endianness) (C : Z)
  (v : uint8x16_p) :
  is_vector v -> 1 <= C <= 15 ->
  let zero := VectorXor v v in
  let shifted := VectorShiftLeft2 e C v zero in
  let dropped := VectorShiftLeft2 e C zero v in
  VectorShiftLeft2 e (16 - C) dropped shifted = v.
Proof.
  intros Hv HC. explode16 v Hv.
  unfold VectorXor. rewrite vec_xor_self.
  count_cases C HC; destruct e; reflexivity.
Qed.

Lemma VectorShiftLeft2_complementary_round_trip_witness :
  let v := vec_lit [1;2;3;4;5;6;7;8;9;10;11;12;13;14;15;16] in
  VectorShiftLeft2 LittleEndian (16 - 4)
    (VectorShiftLeft2 LittleEndian 4 (VectorXor v v) v)
    (VectorShiftLeft2 LittleEndian 4 v (VectorXor v v)) = v.
Proof.
  intros v.
  apply (VectorShiftLeft2_complementary_round_trip LittleEndian 4 v);
    [reflexivity | lia].
Defined.

(** X28.  [VectorShiftLeft<C>(v, v)] rotates [v] left by [C] bytes: for
    [C] in 1..15, on either host, byte [i] of the result is byte
    [(i + C) mod 16] of [v], and rotating the result by [16 - C] gives
    [v] back. *)
Theorem VectorShiftLeft2_rotates (e : endianness) (C : Z) (v : uint8x16_p)
  (i : nat) :
  is_vector v -> 1 <= C <= 15 -> (i < 16)%nat ->
  nth i (VectorShiftLeft2 e C v v) x00
  = nth ((i + Z.to_nat C) mod 16) v x00
  /\ VectorShiftLeft2 e (16 - C) (VectorShiftLeft2 e C v v)
       (VectorShiftLeft2 e C v v) = v.
Proof.
  intros Hv HC Hi. split.
  - rewrite VectorShiftLeft2_window by assumption.
    rewrite nth_firstn.
    replace (i <? 16)%nat with true by (symmetry; apply Nat.ltb_lt; exact Hi).
    rewrite nth_skipn.
    destruct (Nat.lt_ge_cases (i + Z.to_nat C) 16) as [Hlt | Hge].
    + rewrite app_nth1 by (rewrite Hv; lia).
      rewrite Nat.mod_small by lia. f_equal. lia.
    + rewrite app_nth2 by (rewrite Hv; lia). rewrite Hv.
      f_equal.
      replace (i + Z.to_nat C)%nat
        with ((i + Z.to_nat C - 16) + 1 * 16)%nat at 1 by lia.
      rewrite Nat.Div0.mod_add, Nat.mod_small by lia. lia.
  - explode16 v Hv. count_cases C HC; destruct e; reflexivity.
Qed.

Lemma VectorShiftLeft2_rotates_witness :
  let v := vec_lit [1;2;3;4;5;6;7;8;9;10;11;12;13;14;15;16] in
  nth 14 (VectorShiftLeft2 BigEndian 3 v v) x00 = byte_of_Z 2.
Proof.
  intros v.
  apply (VectorShiftLeft2_rotates BigEndian 3 v 14); [reflexivity | lia | lia].
Defined.
